(** * wnba-playing-time: on-court lineup reconstruction

    A shallow embedding of [src/utils.py] (the clock normaliser
    [play_clock_to_seconds], the time-bank state machine
    [process_pbp_data] and the lineup assignment
    [assign_players_on_court]) and of [get_rosters] of [src/main.py],
    together with the properties the specification states about them
    and further properties read off the code.

    Modelling conventions.
    - Python exceptions are values of [error]; a function that may raise
      returns a [result].
    - Times are whole seconds in [Z].  The source parses the seconds part
      of a clock with [float]; on whole-second clocks (the "MM:SS" format
      of its docstring) every float that occurs is an integer, exactly
      represented as long as it stays below 2^53, so integer arithmetic
      agrees with it.  Clocks with a fractional part are outside this
      embedding.
    - The dict [time_on_court] is a [gmap] from player id to record; its
      iteration order (insertion order) is kept separately by
      [dict_keys].
    - A data frame is the list of its rows, the row index being the
      position in the list. *)

From Stdlib Require Import ZArith List String Ascii Decimal DecimalString Lia.
From Stdlib Require Import Sorting.Sorted Sorting.Permutation.
From stdpp Require Import base option list gmap.

Import ListNotations.
Local Open Scope Z_scope.

(** ** Exceptions *)

Inductive error : Type :=
| ValueError                                   (* int()/float() on a bad literal, ragged frame columns *)
| IndexError                                   (* pc_split[1] on a clock without a colon *)
| KeyError (key : option Z)                    (* time_on_court[pid]; [None] is a null id *)
| KeyErrorColumn                               (* sub_df["team_id"] on a frame without columns *)
| TypeError                                    (* None - game_time_remaining *)
| AssertionError (team_id : Z) (index : nat).  (* the lineup-size assertion and the two values of its message *)

Inductive result (A : Type) : Type :=
| Ok (a : A)
| Err (e : error).
Arguments Ok {A} a.
Arguments Err {A} e.

Global Instance result_bind : MBind result := fun A B k r =>
  match r with
  | Ok a => k a
  | Err e => Err e
  end.

Fixpoint mapM {A B : Type} (f : A -> result B) (l : list A) : result (list B) :=
  match l with
  | [] => Ok []
  | a :: l' => b ← f a; bs ← mapM f l'; Ok (b :: bs)
  end.

Fixpoint foldM {A S : Type} (f : A -> S -> result S) (l : list A) (s : S) : result S :=
  match l with
  | [] => Ok s
  | a :: l' => s' ← f a s; foldM f l' s'
  end.

(** ** Clock normaliser *)

(** [str.split(":")]: the pieces between the colons; never empty. *)
Fixpoint split_colon (s : string) : list string :=
  match s with
  | EmptyString => [EmptyString]
  | String c s' =>
      if Ascii.eqb c ":"%char then EmptyString :: split_colon s'
      else match split_colon s' with
           | h :: t => String c h :: t
           | [] => [String c EmptyString]
           end
  end.

(** [int(...)] and [float(...)] on a piece of a clock: a non-empty run of
    decimal digits is read as its value.  Every other piece is treated as
    malformed ([ValueError]); the signs, blanks, underscores, exponents
    and fractions that Python also reads do not occur in a whole-second
    clock. *)
Definition int_of_literal (s : string) : result Z :=
  match NilZero.uint_of_string s with
  | Some d => Ok (Z.of_uint d)
  | None => Err ValueError
  end.

Definition float_of_literal (s : string) : result Z := int_of_literal s.

Definition play_clock_to_seconds (play_clock : string) (period : Z) : result (Z * Z) :=
  let pc_split := split_colon play_clock in
  minutes ← match nth_error pc_split 0 with
            | Some x => int_of_literal x
            | None => Err IndexError
            end;
  seconds ← match nth_error pc_split 1 with
            | Some x => float_of_literal x
            | None => Err IndexError
            end;
  let '(period_time, max_period_time) :=
    if period <=? 4
    then (10 * (4 - period) * 60, 10 * (5 - period) * 60)
    else (0, 5 * 60) in
  Ok (period_time + (minutes * 60 + seconds), max_period_time).

(** ** Data model *)

(** A row of the play-by-play frame as ingested.  A null cell is [None]. *)
Record Event : Type := {
  game_id : Z;
  eventnum : Z;
  period : Z;
  pctimestring : string;
  eventmsgtype : Z;
  player1_id : option Z;
  player1_team_id : option Z;
  player2_id : option Z;
  player3_id : option Z
}.

(** A row of the frame after line 62 has attached [game_time_remaining]. *)
Record PbpRow : Type := {
  row_event :> Event;
  game_time_remaining : Z
}.

(** A value of the dict [time_on_court]. *)
Record PlayerTimeRecord : Type := {
  playing_time : Z;
  time_in : option Z;
  time_in_list : list Z;
  time_out_list : list Z;
  period_list : list Z
}.

Definition new_record : PlayerTimeRecord :=
  {| playing_time := 0; time_in := None; time_in_list := [];
     time_out_list := []; period_list := [] |}.

(** The mutable locals of the loop of [process_pbp_data]; [st_period] is
    its local [period]. *)
Record State : Type := {
  home_on_court : list Z;
  visitor_on_court : list Z;
  st_period : Z;
  time_on_court : gmap Z PlayerTimeRecord
}.

(** A row of [sub_df]. *)
Record SubstitutionInterval : Type := {
  iv_player_id : Z;
  iv_team_id : Z;
  iv_time_in : Z;
  iv_time_out : Z
}.

(** [sub_df]: [pd.DataFrame()] has no columns until a player's frame is
    concatenated to it. *)
Inductive Frame : Type :=
| NoColumns
| Rows (ivs : list SubstitutionInterval).

(** A row of the lineup table; each side lists the columns
    [_player_1] to [_player_5]. *)
Record LineupRow : Type := {
  lr_game_id : Z;
  lr_eventnum : Z;
  home_players : list Z;
  visitor_players : list Z
}.

(** ** Event sequencer *)

(** [sort_values(by=[game_time_remaining, period, eventnum],
    ascending=[False, True, True])]: [row_leb a b] holds when [a] may
    stand before [b]. *)
Definition row_leb (a b : PbpRow) : bool :=
  if game_time_remaining b <? game_time_remaining a then true
  else if game_time_remaining a <? game_time_remaining b then false
  else if period a <? period b then true
  else if period b <? period a then false
  else eventnum a <=? eventnum b.

Fixpoint insert_row (a : PbpRow) (l : list PbpRow) : list PbpRow :=
  match l with
  | [] => [a]
  | b :: l' => if row_leb a b then a :: b :: l' else b :: insert_row a l'
  end.

(** A stable sort: rows with equal keys keep their order. *)
Fixpoint sort_values (l : list PbpRow) : list PbpRow :=
  match l with
  | [] => []
  | a :: l' => insert_row a (sort_values l')
  end.

Definition attach_game_time_remaining (e : Event) : result PbpRow :=
  '(t, _) ← play_clock_to_seconds (pctimestring e) (period e);
  Ok {| row_event := e; game_time_remaining := t |}.

(** ** Lineup / time-bank state machine *)

(** [list.remove]: drops the first occurrence. *)
Fixpoint py_remove (x : Z) (l : list Z) : list Z :=
  match l with
  | [] => []
  | y :: l' => if decide (x = y) then l' else y :: py_remove x l'
  end.

(** Lines 75-78 (and 81-84) on one team's list. *)
Definition sub_on_court (p1 p2 : Z) (on_court : list Z) : list Z :=
  let oc := if decide (p1 ∈ on_court) then py_remove p1 on_court else on_court in
  if decide (p2 ∈ oc) then oc else oc ++ [p2].

Definition close_at (s t per : Z) (ins : list Z) (r : PlayerTimeRecord) : PlayerTimeRecord :=
  {| playing_time := playing_time r + (s - t);
     time_in := None;
     time_in_list := ins;
     time_out_list := time_out_list r ++ [t];
     period_list := period_list r ++ [per] |}.

(** Lines 88-96, on the record of player 1. *)
Definition check_out (t mpt per : Z) (r : PlayerTimeRecord) : PlayerTimeRecord :=
  match time_in r with
  | None => close_at mpt t per (time_in_list r ++ [mpt]) r
  | Some s => close_at s t per (time_in_list r) r
  end.

(** Lines 99-100 (and 118-119, 122-123). *)
Definition check_in (t : Z) (r : PlayerTimeRecord) : PlayerTimeRecord :=
  {| playing_time := playing_time r;
     time_in := Some t;
     time_in_list := time_in_list r ++ [t];
     time_out_list := time_out_list r;
     period_list := period_list r |}.

Definition player_key (o : option Z) : result Z :=
  match o with
  | Some p => Ok p
  | None => Err (KeyError None)
  end.

Definition lookup_record (bank : gmap Z PlayerTimeRecord) (p : Z) : result PlayerTimeRecord :=
  match bank !! p with
  | Some r => Ok r
  | None => Err (KeyError (Some p))
  end.

(** Lines 73-100.  The on-court lists are updated first in the source;
    an exception raised afterwards discards them with everything else,
    so they are put together at the end. *)
Definition substitution (home_id t mpt : Z) (row : Event) (st : State) : result State :=
  p1 ← player_key (player1_id row);
  r1 ← lookup_record (time_on_court st) p1;
  let bank1 := <[p1 := check_out t mpt (st_period st) r1]> (time_on_court st) in
  p2 ← player_key (player2_id row);
  r2 ← lookup_record bank1 p2;
  let bank2 := <[p2 := check_in t r2]> bank1 in
  if decide (player1_team_id row = Some home_id)
  then Ok {| home_on_court := sub_on_court p1 p2 (home_on_court st);
             visitor_on_court := visitor_on_court st;
             st_period := st_period st;
             time_on_court := bank2 |}
  else Ok {| home_on_court := home_on_court st;
             visitor_on_court := sub_on_court p1 p2 (visitor_on_court st);
             st_period := st_period st;
             time_on_court := bank2 |}.

(** Lines 104-107 for one on-court player. *)
Definition close_player (t per : Z) (p : Z) (bank : gmap Z PlayerTimeRecord)
  : result (gmap Z PlayerTimeRecord) :=
  r ← lookup_record bank p;
  match time_in r with
  | None => Err TypeError
  | Some s => Ok (<[p := close_at s t per (time_in_list r) r]> bank)
  end.

(** Lines 101-111. *)
Definition end_of_period (t : Z) (st : State) : result State :=
  bank ← foldM (close_player t (st_period st))
               (home_on_court st ++ visitor_on_court st) (time_on_court st);
  Ok {| home_on_court := [];
        visitor_on_court := [];
        st_period := st_period st + 1;
        time_on_court := bank |}.

(** Lines 114-123 for one participant. *)
Definition discover (home_roster visitor_roster : list Z) (mpt : Z)
    (player_id : option Z) (st : State) : result State :=
  match player_id with
  | None => Ok st
  | Some p =>
      if decide (p ∈ home_roster ∧ p ∉ home_on_court st) then
        r ← lookup_record (time_on_court st) p;
        Ok {| home_on_court := home_on_court st ++ [p];
              visitor_on_court := visitor_on_court st;
              st_period := st_period st;
              time_on_court := <[p := check_in mpt r]> (time_on_court st) |}
      else if decide (p ∈ visitor_roster ∧ p ∉ visitor_on_court st) then
        r ← lookup_record (time_on_court st) p;
        Ok {| home_on_court := home_on_court st;
              visitor_on_court := visitor_on_court st ++ [p];
              st_period := st_period st;
              time_on_court := <[p := check_in mpt r]> (time_on_court st) |}
      else Ok st
  end.

(** Lines 112-123. *)
Definition generic_play (home_roster visitor_roster : list Z) (mpt : Z)
    (row : Event) (st : State) : result State :=
  foldM (discover home_roster visitor_roster mpt)
        [player1_id row; player2_id row; player3_id row] st.

(** Lines 73-123 once the clock of the row is known. *)
Definition step_at (home_roster visitor_roster : list Z) (home_id : Z)
    (t mpt : Z) (row : Event) (st : State) : result State :=
  if eventmsgtype row =? 8 then substitution home_id t mpt row st
  else if eventmsgtype row =? 13 then end_of_period t st
  else if eventmsgtype row <=? 5 then generic_play home_roster visitor_roster mpt row st
  else Ok st.

(** The body of the loop, lines 72-123. *)
Definition step (home_roster visitor_roster : list Z) (home_id : Z)
    (row : PbpRow) (st : State) : result State :=
  '(t, mpt) ← play_clock_to_seconds (pctimestring row) (period row);
  step_at home_roster visitor_roster home_id t mpt row st.

(** Lines 66-68. *)
Definition initial_bank (players : list Z) : gmap Z PlayerTimeRecord :=
  foldl (fun bank p => <[p := new_record]> bank) ∅ players.

Definition initial_state (home_roster visitor_roster : list Z) : State :=
  {| home_on_court := [];
     visitor_on_court := [];
     st_period := 1;
     time_on_court := initial_bank (home_roster ++ visitor_roster) |}.

(** The keys of a dict in insertion order: each key where it first occurs. *)
Fixpoint dict_keys (l : list Z) : list Z :=
  match l with
  | [] => []
  | p :: l' => p :: filter (fun q => q ≠ p) (dict_keys l')
  end.

(** Lines 127-138: the frame of one player; pandas refuses columns of
    different lengths. *)
Definition player_frame (home_roster : list Z) (home_id visitor_id : Z)
    (p : Z) (r : PlayerTimeRecord) : result (list SubstitutionInterval) :=
  let team_id := if decide (p ∈ home_roster) then home_id else visitor_id in
  if decide (length (time_in_list r) = length (time_out_list r))
  then Ok (zip_with (fun i o => {| iv_player_id := p; iv_team_id := team_id;
                                   iv_time_in := i; iv_time_out := o |})
                    (time_in_list r) (time_out_list r))
  else Err ValueError.

Definition concat_frame (sub_df : Frame) (temp_df : list SubstitutionInterval) : Frame :=
  match sub_df with
  | NoColumns => Rows temp_df
  | Rows ivs => Rows (ivs ++ temp_df)
  end.

(** Lines 125-139. *)
Definition build_sub_df (home_roster : list Z) (home_id visitor_id : Z)
    (keys : list Z) (bank : gmap Z PlayerTimeRecord) : result Frame :=
  foldM (fun p sub_df =>
           r ← lookup_record bank p;
           temp_df ← player_frame home_roster home_id visitor_id p r;
           Ok (concat_frame sub_df temp_df))
        keys NoColumns.

(** Lines 56-123: the sorted frame and the state after the last event. *)
Definition run_state_machine (pbp_df : list Event) (home_roster visitor_roster : list Z)
    (home_id : Z) : result (list PbpRow * State) :=
  rows ← mapM attach_game_time_remaining pbp_df;
  let pbp_df := sort_values rows in
  st ← foldM (step home_roster visitor_roster home_id) pbp_df
             (initial_state home_roster visitor_roster);
  Ok (pbp_df, st).

Definition process_pbp_data (pbp_df : list Event) (home_roster visitor_roster : list Z)
    (home_id visitor_id : Z) : result (Frame * list PbpRow) :=
  '(pbp_df, st) ← run_state_machine pbp_df home_roster visitor_roster home_id;
  sub_df ← build_sub_df home_roster home_id visitor_id
                        (dict_keys (home_roster ++ visitor_roster)) (time_on_court st);
  Ok (sub_df, pbp_df).

(** ** Lineup assignment engine *)

(** Lines 160-179 on a frame with columns: the player ids selected for
    one team at one event. *)
Definition on_court_players (sub_df : list SubstitutionInterval) (row : PbpRow)
    (team_id : Z) : list Z :=
  let team_sub_df := filter (fun iv => iv_team_id iv = team_id) sub_df in
  let t := game_time_remaining row in
  if eventmsgtype row =? 13 then
    iv_player_id <$> filter (fun iv => iv_time_out iv = t) team_sub_df
  else if eventmsgtype row =? 8 then
    iv_player_id <$> filter (fun iv => t <= iv_time_in iv ∧ iv_time_out iv < t) team_sub_df
  else
    let on_court := iv_player_id <$>
      filter (fun iv => t <= iv_time_in iv ∧ iv_time_out iv <= t) team_sub_df in
    if decide (5 < length on_court)%nat then
      iv_player_id <$> filter (fun iv => t < iv_time_in iv ∧ iv_time_out iv <= t) team_sub_df
    else on_court.

(** Lines 160-192 for one team: the five columns of [temp_df]. *)
Definition team_lineup (sub_df : Frame) (index : nat) (row : PbpRow) (team_id : Z)
  : result (list Z) :=
  match sub_df with
  | NoColumns => Err KeyErrorColumn
  | Rows ivs =>
      match on_court_players ivs row team_id with
      | [a; b; c; d; e] => Ok [a; b; c; d; e]
      | _ => Err (AssertionError team_id index)
      end
  end.

(** Lines 158-198 from row [index] on. *)
Fixpoint assign_rows (sub_df : Frame) (home_id visitor_id : Z) (index : nat)
    (pbp_df : list PbpRow) : result (list LineupRow) :=
  match pbp_df with
  | [] => Ok []
  | row :: rest =>
      home ← team_lineup sub_df index row home_id;
      visitor ← team_lineup sub_df index row visitor_id;
      player_df ← assign_rows sub_df home_id visitor_id (S index) rest;
      Ok ({| lr_game_id := game_id row; lr_eventnum := eventnum row;
             home_players := home; visitor_players := visitor |} :: player_df)
  end.

Definition assign_players_on_court (sub_df : Frame) (pbp_df : list PbpRow)
    (home_id visitor_id : Z) : result (list LineupRow) :=
  assign_rows sub_df home_id visitor_id 0 pbp_df.

(** The two passes in sequence (the data flow of the specification; the
    source leaves the call to its user). *)
Definition pipeline (pbp_df : list Event) (home_roster visitor_roster : list Z)
    (home_id visitor_id : Z) : result (list LineupRow) :=
  '(sub_df, pbp_df) ← process_pbp_data pbp_df home_roster visitor_roster home_id visitor_id;
  assign_players_on_court sub_df pbp_df home_id visitor_id.

(** ** Rosters (src/main.py) *)

(** A row of the box score frame. *)
Record BoxScoreRow : Type := {
  bs_team_id : Z;
  bs_player_id : Z
}.

(** [get_rosters]: the player ids of the rows of each team, in frame
    order. *)
Definition get_rosters (home_team_id visitor_team_id : Z)
    (box_score_df : list BoxScoreRow) : list Z * list Z :=
  let home_roster := filter (fun r => bs_team_id r = home_team_id) box_score_df in
  let visitor_roster := filter (fun r => bs_team_id r = visitor_team_id) box_score_df in
  (bs_player_id <$> home_roster, bs_player_id <$> visitor_roster).

(** ** Predicates used in the statements *)

(** The order of the three sort keys, written out. *)
Definition row_le (a b : PbpRow) : Prop :=
  game_time_remaining b < game_time_remaining a \/
  (game_time_remaining a = game_time_remaining b /\
   (period a < period b \/
    (period a = period b /\ eventnum a <= eventnum b))).

(** The selection of the specification for one team at one event: one
    filter over the whole interval set, by category. *)
Definition spec_selection (sub_df : list SubstitutionInterval) (category t team_id : Z)
  : list SubstitutionInterval :=
  if decide (category = 13) then
    filter (fun iv => iv_team_id iv = team_id ∧ iv_time_out iv = t) sub_df
  else if decide (category = 8) then
    filter (fun iv => iv_team_id iv = team_id ∧ t <= iv_time_in iv ∧ iv_time_out iv < t) sub_df
  else
    let closed :=
      filter (fun iv => iv_team_id iv = team_id ∧ t <= iv_time_in iv ∧ iv_time_out iv <= t)
             sub_df in
    if decide (5 < length closed)%nat then
      filter (fun iv => iv_team_id iv = team_id ∧ t < iv_time_in iv ∧ iv_time_out iv <= t)
             sub_df
    else closed.

(** What closing the open interval of a record at [t] does, in the words
    of the specification: with no stored check-in the player is an
    implicit starter, checked in at [mpt]. *)
Definition closes_interval (t mpt per : Z) (r r' : PlayerTimeRecord) : Prop :=
  playing_time r' = playing_time r + (default mpt (time_in r) - t) /\
  time_in_list r' =
    time_in_list r ++ match time_in r with Some _ => [] | None => [mpt] end /\
  time_in r' = None /\
  time_out_list r' = time_out_list r ++ [t] /\
  period_list r' = period_list r ++ [per].

(** What opening an interval at [t] does. *)
Definition opens_interval (t : Z) (r r' : PlayerTimeRecord) : Prop :=
  time_in r' = Some t /\
  time_in_list r' = time_in_list r ++ [t] /\
  playing_time r' = playing_time r /\
  time_out_list r' = time_out_list r /\
  period_list r' = period_list r.

(** The on-court list of the team a substitution is tagged with, and the
    other one. *)
Definition tagged_on_court (home_id : Z) (row : Event) (st : State) : list Z :=
  if decide (player1_team_id row = Some home_id) then home_on_court st
  else visitor_on_court st.

Definition untagged_on_court (home_id : Z) (row : Event) (st : State) : list Z :=
  if decide (player1_team_id row = Some home_id) then visitor_on_court st
  else home_on_court st.

(** The number of period-end events among some rows. *)
Definition count_period_ends (rows : list PbpRow) : Z :=
  Z.of_nat (length (filter (fun r : PbpRow => eventmsgtype r = 13) rows)).

(** The rows of a frame, and those of one player. *)
Definition frame_rows (sub_df : Frame) : list SubstitutionInterval :=
  match sub_df with
  | NoColumns => []
  | Rows ivs => ivs
  end.

Definition player_rows (p : Z) (sub_df : Frame) : list SubstitutionInterval :=
  filter (fun iv => iv_player_id iv = p) (frame_rows sub_df).

(** Summed length of the intervals paired off from two time lists. *)
Definition interval_total (ins outs : list Z) : Z :=
  foldr Z.add 0 (zip_with Z.sub ins outs).

(** Summed length of some rows. *)
Definition rows_total (ivs : list SubstitutionInterval) : Z :=
  foldr Z.add 0 ((fun iv => iv_time_in iv - iv_time_out iv) <$> ivs).


(** ** Invariant of the time bank

    [le] is the order in which times are compared; the invariant is used
    with [Z.le] and, where no order is needed, with the full relation. *)

(** The stored check-in of a record, as a list of at most one time. *)
Definition open_entry (r : PlayerTimeRecord) : list Z :=
  match time_in r with
  | Some s => [s]
  | None => []
  end.

(** More check-ins than check-outs and the stored check-in account for:
    a check-in was stored over one still open. *)
Definition broken (r : PlayerTimeRecord) : Prop :=
  (length (time_out_list r) + length (open_entry r) < length (time_in_list r))%nat.

(** The check-ins are the closed ones, one per check-out, followed by the
    stored one; the counter is the summed length of the closed
    intervals. *)
Definition paired (le : Z -> Z -> Prop) (r : PlayerTimeRecord) : Prop :=
  exists ins,
    time_in_list r = ins ++ open_entry r /\
    length ins = length (time_out_list r) /\
    playing_time r = interval_total ins (time_out_list r) /\
    Forall2 (fun i o => le o i) ins (time_out_list r).

Definition rec_ok (le : Z -> Z -> Prop) (lo : Z) (r : PlayerTimeRecord) : Prop :=
  Forall (le lo) (time_out_list r) /\
  Forall (le lo) (open_entry r) /\
  StronglySorted (fun a b => le b a) (time_out_list r) /\
  (broken r \/ paired le r).

Definition bank_ok (le : Z -> Z -> Prop) (lo : Z) (bank : gmap Z PlayerTimeRecord) : Prop :=
  forall p r, bank !! p = Some r -> rec_ok le lo r.

(** The clock of an event does not exceed the length of its period. *)
Definition clock_within_period (le : Z -> Z -> Prop) (e : Event) : Prop :=
  forall t mpt,
    play_clock_to_seconds (pctimestring e) (period e) = Ok (t, mpt) -> le t mpt.

(** ** Sample games *)

Definition mk_event (n per : Z) (clock : string) (category : Z)
    (p1 team p2 p3 : option Z) : Event :=
  {| game_id := 1; eventnum := n; period := per; pctimestring := clock;
     eventmsgtype := category; player1_id := p1; player1_team_id := team;
     player2_id := p2; player3_id := p3 |}.

(** The home team is 100 and the visiting team 200. *)
Definition sample_home_roster : list Z := [1; 2; 3; 4; 5; 6].
Definition sample_visitor_roster : list Z := [11; 12; 13; 14; 15].

(** First period; player 1 leaves for player 5 at 3:20 and is named in a
    play at 2:30 without a substitution back in. *)
Definition bench_play_game : list Event :=
  [ mk_event 1 1 "9:50" 1 (Some 1) (Some 100) (Some 2) (Some 3);
    mk_event 2 1 "9:40" 1 (Some 4) (Some 100) (Some 11) (Some 12);
    mk_event 3 1 "9:30" 1 (Some 13) (Some 200) (Some 14) (Some 15);
    mk_event 4 1 "3:20" 8 (Some 1) (Some 100) (Some 5) None;
    mk_event 5 1 "2:30" 2 (Some 1) (Some 100) None None;
    mk_event 6 1 "0:00" 13 None None None None ].

(** First period; player 5 comes in at 8:20, leaves at 6:40 and is named
    in a play at 5:00 without a substitution back in. *)
Definition return_game : list Event :=
  [ mk_event 1 1 "9:50" 1 (Some 1) (Some 100) (Some 2) (Some 3);
    mk_event 2 1 "9:40" 1 (Some 4) (Some 100) (Some 11) (Some 12);
    mk_event 3 1 "9:30" 1 (Some 13) (Some 200) (Some 14) (Some 15);
    mk_event 4 1 "8:20" 8 (Some 1) (Some 100) (Some 5) None;
    mk_event 5 1 "6:40" 8 (Some 5) (Some 100) (Some 1) None;
    mk_event 6 1 "5:00" 2 (Some 5) (Some 100) None None;
    mk_event 7 1 "0:00" 13 None None None None ].


(** First period with no substitution; the second play names 99, who is
    on neither roster. *)
Definition stranger_game : list Event :=
  [ mk_event 1 1 "9:50" 1 (Some 1) (Some 100) (Some 2) (Some 3);
    mk_event 2 1 "9:40" 4 (Some 4) (Some 100) (Some 5) (Some 99);
    mk_event 3 1 "9:30" 1 (Some 11) (Some 200) (Some 12) (Some 13);
    mk_event 4 1 "9:20" 2 (Some 14) (Some 200) (Some 15) None;
    mk_event 5 1 "0:00" 13 None None None None ].


(** Six intervals of team 100 around the instant 2000, one of them
    starting there, and a play, a substitution and a period end at that
    instant. *)
Definition crowded_intervals : list SubstitutionInterval :=
  [ {| iv_player_id := 1; iv_team_id := 100; iv_time_in := 2400; iv_time_out := 2000 |};
    {| iv_player_id := 2; iv_team_id := 100; iv_time_in := 2400; iv_time_out := 1800 |};
    {| iv_player_id := 3; iv_team_id := 100; iv_time_in := 2400; iv_time_out := 1800 |};
    {| iv_player_id := 4; iv_team_id := 100; iv_time_in := 2400; iv_time_out := 1800 |};
    {| iv_player_id := 5; iv_team_id := 100; iv_time_in := 2400; iv_time_out := 1800 |};
    {| iv_player_id := 6; iv_team_id := 100; iv_time_in := 2000; iv_time_out := 1800 |};
    {| iv_player_id := 11; iv_team_id := 200; iv_time_in := 2400; iv_time_out := 1800 |} ].

Definition row_at_2000 (category : Z) : PbpRow :=
  {| row_event := mk_event 7 1 "3:20" category None None None None;
     game_time_remaining := 2000 |}.

(** A state whose home player 1 has no stored check-in, and a
    substitution of player 6 for player 1. *)
Definition starters_state : State :=
  {| home_on_court := [1; 2; 3; 4; 5];
     visitor_on_court := [11; 12; 13; 14; 15];
     st_period := 2;
     time_on_court := initial_bank (sample_home_roster ++ sample_visitor_roster) |}.

Definition sample_substitution : Event :=
  mk_event 20 2 "6:40" 8 (Some 1) (Some 100) (Some 6) None.

Definition sample_substitution_row : PbpRow :=
  {| row_event := sample_substitution; game_time_remaining := 1600 |}.

(** ** Further predicates *)


(** [evolves r r']: [r'] comes from [r] by check-outs and check-ins, the
    only writes the loop makes to a record. *)
Inductive evolves : PlayerTimeRecord -> PlayerTimeRecord -> Prop :=
| evolves_refl (r : PlayerTimeRecord) : evolves r r
| evolves_out (r r' : PlayerTimeRecord) (t mpt per : Z) :
    evolves r r' -> evolves r (check_out t mpt per r')
| evolves_in (r r' : PlayerTimeRecord) (s : Z) :
    evolves r r' -> evolves r (check_in s r').

(** The two lists of a record have the same length. *)
Definition balanced (r : PlayerTimeRecord) : Prop :=
  length (time_in_list r) = length (time_out_list r).

(** Every on-court player of a state is checked in, and on one list
    only. *)
Definition all_checked_in (st : State) : Prop :=
  NoDup (home_on_court st ++ visitor_on_court st) /\
  forall p, p ∈ home_on_court st ++ visitor_on_court st ->
    exists r s, time_on_court st !! p = Some r /\ time_in r = Some s.

(** The lineup row of an event, from the two selections. *)
Definition lineup_row (ivs : list SubstitutionInterval) (home_id visitor_id : Z)
    (row : PbpRow) : LineupRow :=
  {| lr_game_id := game_id row; lr_eventnum := eventnum row;
     home_players := on_court_players ivs row home_id;
     visitor_players := on_court_players ivs row visitor_id |}.

(** ** Further sample games *)

(** The end of regulation and an overtime: a play with 3:00 left in the
    fourth period, one with 4:00 left in the first overtime. *)
Definition overtime_game : list Event :=
  [ mk_event 1 4 "3:00" 1 (Some 1) (Some 100) None None;
    mk_event 2 5 "4:00" 1 (Some 2) (Some 100) None None ].

(** Player 6 is brought in twice without leaving in between. *)
Definition double_entry_game : list Event :=
  [ mk_event 1 1 "9:00" 8 (Some 1) (Some 100) (Some 6) None;
    mk_event 2 1 "8:00" 8 (Some 2) (Some 100) (Some 6) None;
    mk_event 3 1 "0:00" 13 None None None None ].

(** Player 6 comes in and the log stops. *)
Definition unfinished_game : list Event :=
  [ mk_event 1 1 "9:00" 8 (Some 1) (Some 100) (Some 6) None ].

(** A box score of two teams and an official of neither. *)
Definition sample_box_score : list BoxScoreRow :=
  [ {| bs_team_id := 100; bs_player_id := 1 |};
    {| bs_team_id := 200; bs_player_id := 11 |};
    {| bs_team_id := 100; bs_player_id := 2 |};
    {| bs_team_id := 300; bs_player_id := 77 |};
    {| bs_team_id := 200; bs_player_id := 12 |} ].

(** * Properties *)

(** ** The exception monad *)

Lemma bind_Ok {A B : Type} (r : result A) (k : A -> result B) (b : B) :
  mbind k r = Ok b -> exists a, r = Ok a /\ k a = Ok b.
Proof.
  destruct r as [a|e]; cbn; intros H; [eauto | discriminate].
Qed.

(** Split a hypothesis [x ← r; k x = Ok b] into its two halves. *)
Ltac inv_bind H :=
  let a := fresh "a" in
  let Ha := fresh "Ha" in
  apply bind_Ok in H as (a & Ha & H).

Lemma foldM_app {A S : Type} (f : A -> S -> result S) (l1 l2 : list A) (s : S) :
  foldM f (l1 ++ l2) s = mbind (foldM f l2) (foldM f l1 s).
Proof.
  revert s. induction l1 as [|a l1 IH]; intros s; simpl.
  - reflexivity.
  - destruct (f a s) as [s'|e]; cbn; [apply IH | reflexivity].
Qed.

(** A successful fold passes through the state before and after each of
    its elements. *)
Lemma foldM_split {A S : Type} (f : A -> S -> result S) (l1 l2 : list A) (a : A)
    (s s' : S) :
  foldM f (l1 ++ a :: l2) s = Ok s' ->
  exists s1 s2, foldM f l1 s = Ok s1 /\ f a s1 = Ok s2 /\ foldM f l2 s2 = Ok s'.
Proof.
  rewrite foldM_app. intros H. inv_bind H. simpl in H. inv_bind H. eauto.
Qed.

(** An invariant kept by every step is kept by the fold. *)
Lemma foldM_invariant {A S : Type} (f : A -> S -> result S) (I : S -> Prop)
    (l : list A) :
  (forall a s s', a ∈ l -> I s -> f a s = Ok s' -> I s') ->
  forall s s', I s -> foldM f l s = Ok s' -> I s'.
Proof.
  induction l as [|a l IH]; simpl; intros Hf s s' Hs H.
  - injection H as <-. assumption.
  - inv_bind H. eapply IH; [| |exact H].
    + intros b t t' Hb. apply Hf. now right.
    + eapply Hf; [left|exact Hs|exact Ha].
Qed.

(** Every element of a successful fold was applied to a state at which
    the invariant held. *)
Lemma foldM_reach {A S : Type} (f : A -> S -> result S) (I : S -> Prop)
    (l : list A) (a : A) :
  (forall b s s', I s -> f b s = Ok s' -> I s') ->
  forall s s', I s -> foldM f l s = Ok s' -> a ∈ l ->
  exists s1 s2, I s1 /\ f a s1 = Ok s2.
Proof.
  intros Hf. induction l as [|b l IH]; simpl; intros s s' Hs H Ha.
  - inversion Ha.
  - inv_bind H. apply elem_of_cons in Ha as [->|Ha]; [eauto|].
    eapply IH; [|exact H|exact Ha]. eapply Hf; eassumption.
Qed.

(** ** Clock normaliser *)

Section Clock.

Local Open Scope string_scope.

Lemma split_colon_digits (d : uint) :
  split_colon (NilEmpty.string_of_uint d) = [NilEmpty.string_of_uint d].
Proof.
  induction d as [|d IH|d IH|d IH|d IH|d IH|d IH|d IH|d IH|d IH|d IH];
    simpl; [reflexivity | rewrite IH; reflexivity ..].
Qed.

Lemma split_colon_literal (d : uint) :
  split_colon (NilZero.string_of_uint d) = [NilZero.string_of_uint d].
Proof.
  destruct d; try reflexivity; apply split_colon_digits.
Qed.

(** A piece without a colon in front of a colon is the first piece. *)
Lemma split_colon_app (a b : string) :
  split_colon a = [a] ->
  split_colon (a ++ String ":" b) = a :: split_colon b.
Proof.
  induction a as [|c a IH]; simpl; intros Ha.
  - reflexivity.
  - destruct (Ascii.eqb c ":") eqn:Hc.
    + inversion Ha.
    + destruct (split_colon a) as [|h t] eqn:Hs.
      * inversion Ha; subst. simpl in Hs. inversion Hs.
      * inversion Ha; subst. rewrite IH by reflexivity. reflexivity.
Qed.

Lemma int_of_literal_digits (d : uint) :
  int_of_literal (NilZero.string_of_uint d) = Ok (Z.of_uint d).
Proof.
  unfold int_of_literal.
  destruct (uint_eq_dec d Nil) as [->|Hd].
  - reflexivity.
  - rewrite NilZero.usu by assumption. reflexivity.
Qed.

Lemma play_clock_to_seconds_digits (m s : uint) (p : Z) :
  play_clock_to_seconds
    (NilZero.string_of_uint m ++ String ":" (NilZero.string_of_uint s)) p =
  Ok (if p <=? 4
      then (10 * (4 - p) * 60 + (Z.of_uint m * 60 + Z.of_uint s), 10 * (5 - p) * 60)
      else (0 + (Z.of_uint m * 60 + Z.of_uint s), 5 * 60))%Z.
Proof.
  unfold play_clock_to_seconds.
  rewrite split_colon_app by apply split_colon_literal.
  rewrite split_colon_literal. cbn [nth_error].
  unfold float_of_literal. rewrite !int_of_literal_digits. cbn [mbind result_bind].
  destruct (p <=? 4)%Z; reflexivity.
Qed.



(** The second component is a multiple of 300 whatever the clock. *)
Lemma max_period_time_multiple (clock : string) (p t mpt : Z) :
  play_clock_to_seconds clock p = Ok (t, mpt) ->
  exists k : Z, mpt = (300 * k)%Z.
Proof.
  unfold play_clock_to_seconds.
  destruct (match nth_error (split_colon clock) 0 with
            | Some x => int_of_literal x | None => Err IndexError end); [|discriminate].
  destruct (match nth_error (split_colon clock) 1 with
            | Some x => float_of_literal x | None => Err IndexError end); [|discriminate].
  cbn [mbind result_bind].
  destruct (p <=? 4)%Z; intros [= _ <-].
  - exists (2 * (5 - p))%Z. lia.
  - exists 1%Z. lia.
Qed.

End Clock.

(** ** Event sequencer *)

Section Sequencer.

Local Open Scope Z_scope.

Lemma row_leb_le (a b : PbpRow) : row_leb a b = true <-> row_le a b.
Proof.
  unfold row_leb, row_le.
  repeat (match goal with
          | |- context [?x <? ?y] => destruct (Z.ltb_spec x y)
          end);
    rewrite ?Z.leb_le; split; intros; try discriminate; try lia.
Qed.

Lemma row_le_total (a b : PbpRow) : row_le a b \/ row_le b a.
Proof. unfold row_le. lia. Qed.

Lemma row_le_trans (a b c : PbpRow) : row_le a b -> row_le b c -> row_le a c.
Proof. unfold row_le. lia. Qed.

Lemma row_le_game_time (a b : PbpRow) :
  row_le a b -> game_time_remaining b <= game_time_remaining a.
Proof. unfold row_le. lia. Qed.

Lemma insert_row_perm (a : PbpRow) (l : list PbpRow) :
  Permutation (insert_row a l) (a :: l).
Proof.
  induction l as [|b l IH]; simpl.
  - reflexivity.
  - destruct (row_leb a b); [reflexivity|].
    rewrite IH. apply perm_swap.
Qed.

Lemma sort_values_perm (l : list PbpRow) : Permutation (sort_values l) l.
Proof.
  induction l as [|a l IH]; simpl.
  - reflexivity.
  - rewrite insert_row_perm. now apply perm_skip.
Qed.

Lemma insert_row_sorted (a : PbpRow) (l : list PbpRow) :
  StronglySorted row_le l -> StronglySorted row_le (insert_row a l).
Proof.
  induction 1 as [|b l Hl IH Hb]; simpl.
  - repeat constructor.
  - destruct (row_leb a b) eqn:E.
    + apply row_leb_le in E.
      constructor; [constructor; assumption|].
      constructor; [assumption|].
      eapply Forall_impl; [exact Hb|]. intros c Hc. eapply row_le_trans; eassumption.
    + assert (Hba : row_le b a).
      { destruct (row_le_total a b) as [H|H]; [|assumption].
        apply row_leb_le in H. congruence. }
      constructor; [assumption|].
      rewrite Forall_forall. intros c Hc.
      rewrite insert_row_perm in Hc.
      apply elem_of_cons in Hc as [->|Hc]; [assumption|].
      rewrite Forall_forall in Hb. now apply Hb.
Qed.

Lemma sort_values_sorted (l : list PbpRow) : StronglySorted row_le (sort_values l).
Proof.
  induction l as [|a l IH]; simpl.
  - constructor.
  - now apply insert_row_sorted.
Qed.

Lemma mapM_attach (pbp_df : list Event) (rows : list PbpRow) :
  mapM attach_game_time_remaining pbp_df = Ok rows ->
  row_event <$> rows = pbp_df /\
  Forall (fun r : PbpRow => exists mpt,
            play_clock_to_seconds (pctimestring r) (period r) =
              Ok (game_time_remaining r, mpt)) rows.
Proof.
  revert rows. induction pbp_df as [|e l IH]; simpl; intros rows H.
  - injection H as <-. split; constructor.
  - inv_bind H. inv_bind H. injection H as <-.
    destruct (IH _ Ha0) as [IH1 IH2].
    unfold attach_game_time_remaining in Ha. inv_bind Ha.
    destruct a1 as [t mpt]. injection Ha as <-.
    split; [simpl; now f_equal|].
    constructor; [|assumption]. exists mpt. assumption.
Qed.

Lemma run_state_machine_Ok
    (pbp_df : list Event) (home_roster visitor_roster : list Z) (home_id : Z)
    (rows : list PbpRow) (st : State) :
  run_state_machine pbp_df home_roster visitor_roster home_id = Ok (rows, st) ->
  exists rs,
    mapM attach_game_time_remaining pbp_df = Ok rs /\
    rows = sort_values rs /\
    foldM (step home_roster visitor_roster home_id) (sort_values rs)
          (initial_state home_roster visitor_roster) = Ok st.
Proof.
  unfold run_state_machine. intros H.
  inv_bind H. inv_bind H. injection H as <- <-. eauto.
Qed.

Lemma process_pbp_data_Ok
    (pbp_df : list Event) (home_roster visitor_roster : list Z)
    (home_id visitor_id : Z) (sub_df : Frame) (rows : list PbpRow) :
  process_pbp_data pbp_df home_roster visitor_roster home_id visitor_id =
    Ok (sub_df, rows) ->
  exists st,
    run_state_machine pbp_df home_roster visitor_roster home_id = Ok (rows, st) /\
    build_sub_df home_roster home_id visitor_id
      (dict_keys (home_roster ++ visitor_roster)) (time_on_court st) = Ok sub_df.
Proof.
  unfold process_pbp_data. intros H.
  inv_bind H. destruct a as [rows' st]. inv_bind H. injection H as <- <-. eauto.
Qed.

Lemma row_le_antisym (a b : PbpRow) :
  row_le a b -> row_le b a -> eventnum a = eventnum b.
Proof. unfold row_le. lia. Qed.

Lemma eventnum_inj (l : list PbpRow) (a b : PbpRow) :
  NoDup ((fun r : PbpRow => eventnum r) <$> l) ->
  a ∈ l -> b ∈ l -> eventnum a = eventnum b -> a = b.
Proof.
  induction l as [|c l IH]; [inversion 2|].
  rewrite fmap_cons, NoDup_cons. intros [Hc Hl] Ha Hb E.
  apply elem_of_cons in Ha as [->|Ha]; apply elem_of_cons in Hb as [->|Hb]; auto.
  - exfalso. apply Hc. rewrite E. apply list_elem_of_fmap. eauto.
  - exfalso. apply Hc. rewrite <- E. apply list_elem_of_fmap. eauto.
Qed.

(** With distinct event numbers only one arrangement is sorted. *)
Lemma sorted_order_unique (l1 l2 : list PbpRow) :
  NoDup ((fun r : PbpRow => eventnum r) <$> l1) ->
  StronglySorted row_le l1 -> StronglySorted row_le l2 ->
  Permutation l1 l2 -> l1 = l2.
Proof.
  revert l2. induction l1 as [|a l1 IH]; intros l2 Hnd H1 H2 Hperm.
  - now apply Permutation_nil in Hperm.
  - destruct l2 as [|b l2]; [now apply Permutation_sym, Permutation_nil in Hperm|].
    apply StronglySorted_inv in H1 as [H1 Ha]. apply StronglySorted_inv in H2 as [H2 Hb].
    rewrite Forall_forall in Ha, Hb.
    assert (a = b) as <-.
    { assert (Ha2 : a ∈ b :: l2) by (rewrite <- Hperm; left).
      assert (Hb1 : b ∈ a :: l1) by (rewrite Hperm; left).
      apply elem_of_cons in Ha2 as [|Ha2]; [assumption|].
      apply elem_of_cons in Hb1 as [|Hb1]; [congruence|].
      apply (eventnum_inj (a :: l1)); [assumption | left | now right |].
      apply row_le_antisym; auto. }
    f_equal. apply IH; auto.
    + rewrite fmap_cons in Hnd. now apply NoDup_cons in Hnd as [_ Hnd].
    + eapply Permutation_cons_inv. exact Hperm.
Qed.

(** C9.  When the state machine runs, the rows it folds over are the
    input events (each exactly once, with its normalised clock
    attached) arranged so that any row stands before every later one in
    the order: [game_time_remaining] descending, then [period]
    ascending, then [eventnum] ascending; the final state is the loop
    body applied to them in that sequence.  When the event numbers are
    distinct no other arrangement of the rows is in that order. *)
Theorem events_processed_in_sorted_order
    (pbp_df : list Event) (home_roster visitor_roster : list Z) (home_id : Z)
    (rows : list PbpRow) (st : State) :
  run_state_machine pbp_df home_roster visitor_roster home_id = Ok (rows, st) ->
  Permutation (row_event <$> rows) pbp_df /\
  Forall (fun r : PbpRow => exists mpt,
            play_clock_to_seconds (pctimestring r) (period r) =
              Ok (game_time_remaining r, mpt)) rows /\
  StronglySorted row_le rows /\
  foldM (step home_roster visitor_roster home_id) rows
        (initial_state home_roster visitor_roster) = Ok st /\
  (NoDup (eventnum <$> pbp_df) ->
   forall rows', Permutation rows rows' -> StronglySorted row_le rows' -> rows = rows').
Proof.
  intros H. apply run_state_machine_Ok in H as (rs & E & -> & F).
  destruct (mapM_attach _ _ E) as [H1 H2].
  repeat split.
  - rewrite <- H1. apply Permutation_map. apply sort_values_perm.
  - rewrite Forall_forall in *. intros r Hr. apply H2.
    now rewrite sort_values_perm in Hr.
  - apply sort_values_sorted.
  - exact F.
  - intros Hnd rows' Hperm Hsorted.
    apply sorted_order_unique; auto using sort_values_sorted.
    assert (Hnum : (fun r : PbpRow => eventnum r) <$> sort_values rs ≡ₚ
                   eventnum <$> pbp_df).
    { rewrite <- H1, <- list_fmap_compose. apply Permutation_map, sort_values_perm. }
    now rewrite Hnum.
Qed.

End Sequencer.

(** ** Lineup assignment engine *)

Section Assignment.

Local Open Scope Z_scope.

Lemma filter_team (P : SubstitutionInterval -> Prop) `{!forall x, Decision (P x)}
    (team_id : Z) (sub_df : list SubstitutionInterval) :
  filter P (filter (fun iv => iv_team_id iv = team_id) sub_df) =
  filter (fun iv => iv_team_id iv = team_id ∧ P iv) sub_df.
Proof.
  rewrite list_filter_filter. apply list_filter_iff. tauto.
Qed.

(** The code's two-stage filter against the one filter of the
    specification. *)
Lemma on_court_players_spec (sub_df : list SubstitutionInterval) (row : PbpRow)
    (team_id : Z) :
  on_court_players sub_df row team_id =
  iv_player_id <$>
    spec_selection sub_df (eventmsgtype row) (game_time_remaining row) team_id.
Proof.
  unfold on_court_players, spec_selection.
  rewrite !filter_team, !length_fmap.
  destruct (Z.eqb_spec (eventmsgtype row) 13), (decide (eventmsgtype row = 13));
    try contradiction; [reflexivity|].
  destruct (Z.eqb_spec (eventmsgtype row) 8), (decide (eventmsgtype row = 8));
    try contradiction; [reflexivity|].
  destruct (decide _); reflexivity.
Qed.

(** C3.  At an event with query time [t], for one team, the ids chosen
    are those of the team's intervals, in frame order, with: at a
    period end (13) [time_out = t]; at a substitution (8)
    [time_in >= t] and [time_out < t]; at any other event
    [time_in >= t] and [time_out <= t], unless more than five
    intervals pass that test, in which case [time_in > t] and
    [time_out <= t]. *)
Theorem selection_by_category (sub_df : list SubstitutionInterval) (row : PbpRow)
    (team_id : Z) :
  let t := game_time_remaining row in
  let chosen := on_court_players sub_df row team_id in
  let closed :=
    filter (fun iv => iv_team_id iv = team_id ∧ t <= iv_time_in iv ∧ iv_time_out iv <= t)
           sub_df in
  (eventmsgtype row = 13 ->
   chosen = iv_player_id <$>
     filter (fun iv => iv_team_id iv = team_id ∧ iv_time_out iv = t) sub_df) /\
  (eventmsgtype row = 8 ->
   chosen = iv_player_id <$>
     filter (fun iv => iv_team_id iv = team_id ∧ t <= iv_time_in iv ∧ iv_time_out iv < t)
            sub_df) /\
  (eventmsgtype row <> 13 -> eventmsgtype row <> 8 ->
   (length closed <= 5)%nat -> chosen = iv_player_id <$> closed) /\
  (eventmsgtype row <> 13 -> eventmsgtype row <> 8 ->
   (5 < length closed)%nat ->
   chosen = iv_player_id <$>
     filter (fun iv => iv_team_id iv = team_id ∧ t < iv_time_in iv ∧ iv_time_out iv <= t)
            sub_df).
Proof.
  cbv zeta. rewrite on_court_players_spec. unfold spec_selection.
  repeat split.
  - intros ->. reflexivity.
  - intros ->. reflexivity.
  - intros H13 H8 Hlen.
    destruct (decide (eventmsgtype row = 13)); [contradiction|].
    destruct (decide (eventmsgtype row = 8)); [contradiction|].
    destruct (decide _); [lia | reflexivity].
  - intros H13 H8 Hlen.
    destruct (decide (eventmsgtype row = 13)); [contradiction|].
    destruct (decide (eventmsgtype row = 8)); [contradiction|].
    destruct (decide _); [reflexivity | lia].
Qed.

(** The theorem on [crowded_intervals] at the instant 2000: five ids at
    the substitution, one at the period end, and the narrowed test at a
    play, where six intervals pass the closed one. *)
Lemma selection_by_category_witness :
  on_court_players crowded_intervals (row_at_2000 13) 100 = [1%Z] /\
  on_court_players crowded_intervals (row_at_2000 8) 100 = [2; 3; 4; 5; 6] /\
  on_court_players crowded_intervals (row_at_2000 1) 100 = [1; 2; 3; 4; 5] /\
  on_court_players crowded_intervals (row_at_2000 1) 200 = [11].
Proof.
  pose proof (selection_by_category crowded_intervals (row_at_2000 13) 100)
    as (H13 & _ & _ & _).
  pose proof (selection_by_category crowded_intervals (row_at_2000 8) 100)
    as (_ & H8 & _ & _).
  pose proof (selection_by_category crowded_intervals (row_at_2000 1) 100)
    as (_ & _ & _ & Hstrict).
  pose proof (selection_by_category crowded_intervals (row_at_2000 1) 200)
    as (_ & _ & Hclosed & _).
  cbv zeta in *.
  split; [|split; [|split]].
  - rewrite H13 by reflexivity. reflexivity.
  - rewrite H8 by reflexivity. reflexivity.
  - rewrite Hstrict; [reflexivity | discriminate | discriminate | vm_compute; lia].
  - rewrite Hclosed; [reflexivity | discriminate | discriminate | vm_compute; lia].
Defined.

Lemma team_lineup_five (ivs : list SubstitutionInterval) (index : nat) (row : PbpRow)
    (team_id : Z) :
  length (on_court_players ivs row team_id) = 5%nat ->
  team_lineup (Rows ivs) index row team_id = Ok (on_court_players ivs row team_id).
Proof.
  unfold team_lineup.
  destruct (on_court_players ivs row team_id) as [|a [|b [|c [|d [|e [|f l]]]]]];
    simpl; intros H; try discriminate; reflexivity.
Qed.


Lemma team_lineup_Ok (sub_df : Frame) (index : nat) (row : PbpRow) (team_id : Z)
    (l : list Z) :
  team_lineup sub_df index row team_id = Ok l -> length l = 5%nat.
Proof.
  unfold team_lineup. destruct sub_df as [|ivs]; [discriminate|].
  destruct (on_court_players ivs row team_id) as [|a [|b [|c [|d [|e [|f l']]]]]];
    intros [= <-]; reflexivity.
Qed.





Lemma assign_rows_Ok (sub_df : Frame) (home_id visitor_id : Z) (pbp_df : list PbpRow)
    (k : nat) (player_df : list LineupRow) :
  assign_rows sub_df home_id visitor_id k pbp_df = Ok player_df ->
  Forall2 (fun (lr : LineupRow) (row : PbpRow) =>
             lr_game_id lr = game_id row /\ lr_eventnum lr = eventnum row /\
             length (home_players lr) = 5%nat /\ length (visitor_players lr) = 5%nat)
          player_df pbp_df.
Proof.
  revert k player_df. induction pbp_df as [|row rest IH]; intros k player_df H.
  - injection H as <-. constructor.
  - cbn [assign_rows] in H. inv_bind H. inv_bind H. inv_bind H. injection H as <-.
    constructor; [|eapply IH; eassumption].
    simpl. repeat split; eapply team_lineup_Ok; eassumption.
Qed.

End Assignment.

(** ** Lineup / time-bank state machine: single transitions *)

Section Transitions.

Local Open Scope Z_scope.

Lemma py_remove_elem (x y : Z) (l : list Z) :
  NoDup l -> y ∈ py_remove x l <-> y ∈ l /\ y <> x.
Proof.
  induction 1 as [|a l Ha Hl IH]; simpl.
  - split; [inversion 1 | intros [H _]; inversion H].
  - destruct (decide (x = a)) as [->|Hne].
    + rewrite elem_of_cons. split.
      * intros Hy. split; [now right|]. intros ->. contradiction.
      * intros [[->|Hy] Hn]; [contradiction | assumption].
    + rewrite !elem_of_cons, IH. split.
      * intros [->|[Hy Hn]]; split; auto.
      * intros [[->|Hy] Hn]; auto.
Qed.

Lemma py_remove_NoDup (x : Z) (l : list Z) : NoDup l -> NoDup (py_remove x l).
Proof.
  induction 1 as [|a l Ha Hl IH]; simpl; [constructor|].
  destruct (decide (x = a)); [assumption|].
  constructor; [|assumption]. rewrite py_remove_elem by assumption. tauto.
Qed.

Lemma sub_on_court_elem (p1 p2 x : Z) (l : list Z) :
  NoDup l -> x ∈ sub_on_court p1 p2 l <-> x = p2 \/ (x ∈ l /\ x <> p1).
Proof.
  intros Hl. unfold sub_on_court.
  assert (Hoc : forall y,
             y ∈ (if decide (p1 ∈ l) then py_remove p1 l else l) <-> y ∈ l /\ y <> p1).
  { intros y. destruct (decide (p1 ∈ l)) as [Hin|Hout].
    - now apply py_remove_elem.
    - split; [|tauto]. intros Hy. split; [assumption|]. intros ->. contradiction. }
  destruct (decide (p2 ∈ _)) as [H2|H2].
  - rewrite Hoc. split; [tauto|]. intros [->|H]; [now apply Hoc | assumption].
  - rewrite elem_of_app, list_elem_of_singleton, Hoc. tauto.
Qed.

Lemma sub_on_court_NoDup (p1 p2 : Z) (l : list Z) :
  NoDup l -> NoDup (sub_on_court p1 p2 l).
Proof.
  intros Hl. unfold sub_on_court.
  assert (Hoc : NoDup (if decide (p1 ∈ l) then py_remove p1 l else l)).
  { destruct (decide (p1 ∈ l)); [now apply py_remove_NoDup | assumption]. }
  destruct (decide (p2 ∈ _)) as [H2|H2]; [assumption|].
  apply NoDup_app. split; [assumption|]. split; [|apply NoDup_singleton].
  intros y Hy Hy'. apply list_elem_of_singleton in Hy'. now subst.
Qed.

Lemma check_out_closes (t mpt per : Z) (r : PlayerTimeRecord) :
  closes_interval t mpt per r (check_out t mpt per r).
Proof.
  unfold closes_interval, check_out.
  destruct (time_in r) as [s|]; simpl; rewrite ?app_nil_r; auto.
Qed.

Lemma check_in_opens (t : Z) (r : PlayerTimeRecord) :
  opens_interval t r (check_in t r).
Proof. unfold opens_interval. simpl. auto 6. Qed.

Lemma lookup_record_Ok (bank : gmap Z PlayerTimeRecord) (p : Z) (r : PlayerTimeRecord) :
  lookup_record bank p = Ok r <-> bank !! p = Some r.
Proof.
  unfold lookup_record. destruct (bank !! p); split; intros H; congruence.
Qed.

(** The successful runs of [substitution], read off its text. *)
Lemma substitution_Ok (home_id t mpt : Z) (row : Event) (st st' : State) :
  substitution home_id t mpt row st = Ok st' ->
  exists p1 p2 r1 r2,
    player1_id row = Some p1 /\ player2_id row = Some p2 /\
    time_on_court st !! p1 = Some r1 /\
    <[p1 := check_out t mpt (st_period st) r1]> (time_on_court st) !! p2 = Some r2 /\
    time_on_court st' =
      <[p2 := check_in t r2]>
        (<[p1 := check_out t mpt (st_period st) r1]> (time_on_court st)) /\
    st_period st' = st_period st /\
    tagged_on_court home_id row st' = sub_on_court p1 p2 (tagged_on_court home_id row st) /\
    untagged_on_court home_id row st' = untagged_on_court home_id row st.
Proof.
  unfold substitution, tagged_on_court, untagged_on_court. intros H.
  destruct (player1_id row) as [p1|]; [|discriminate].
  cbn [player_key mbind result_bind] in H.
  inv_bind H. apply lookup_record_Ok in Ha.
  destruct (player2_id row) as [p2|]; [|discriminate].
  cbn [player_key mbind result_bind] in H.
  inv_bind H. apply lookup_record_Ok in Ha0.
  exists p1, p2, a, a0.
  destruct (decide (player1_team_id row = Some home_id)); injection H as <-;
    simpl; auto 10.
Qed.

Lemma substitution_run (home_id t mpt : Z) (row : Event) (st : State)
    (p1 p2 : Z) (r1 r2 : PlayerTimeRecord) :
  player1_id row = Some p1 -> player2_id row = Some p2 ->
  time_on_court st !! p1 = Some r1 ->
  <[p1 := check_out t mpt (st_period st) r1]> (time_on_court st) !! p2 = Some r2 ->
  exists st', substitution home_id t mpt row st = Ok st'.
Proof.
  intros H1 H2 Hr1 Hr2. unfold substitution, lookup_record.
  rewrite H1, H2. cbn [player_key mbind result_bind].
  rewrite Hr1. cbn [mbind result_bind].
  rewrite Hr2. cbn [mbind result_bind].
  destruct (decide _); eauto.
Qed.

(** C5.  A substitution at time [t], tagged with a team, of [p2] for
    [p1], both in the time bank: the tagged team's on-court set loses
    [p1] and gains [p2], the other set is untouched; the record of [p1]
    accrues [max_period_time - t] with a check-in recorded at
    [max_period_time] when its stored check-in is null and
    [stored_check_in - t] otherwise, has its stored check-in cleared,
    [t] appended to its check-outs and the period counter to its period
    history; after that the record of [p2] has its stored check-in set
    to [t] and [t] appended to its check-ins.  With [t = 1000],
    [max_period_time = 1530] and a null stored check-in the outgoing
    player accrues 530 and the interval is (1530, 1000). *)
Theorem substitution_transition
    (home_roster visitor_roster : list Z) (home_id t mpt : Z) (row : Event)
    (st : State) (p1 p2 : Z) (r1 : PlayerTimeRecord) :
  eventmsgtype row = 8 ->
  player1_id row = Some p1 -> player2_id row = Some p2 ->
  time_on_court st !! p1 = Some r1 -> is_Some (time_on_court st !! p2) ->
  NoDup (tagged_on_court home_id row st) ->
  exists (st' : State) (closed r2 opened : PlayerTimeRecord),
    step_at home_roster visitor_roster home_id t mpt row st = Ok st' /\
    (forall x, x ∈ tagged_on_court home_id row st' <->
               x = p2 \/ (x ∈ tagged_on_court home_id row st /\ x <> p1)) /\
    untagged_on_court home_id row st' = untagged_on_court home_id row st /\
    closes_interval t mpt (st_period st) r1 closed /\
    <[p1 := closed]> (time_on_court st) !! p2 = Some r2 /\
    opens_interval t r2 opened /\
    time_on_court st' = <[p2 := opened]> (<[p1 := closed]> (time_on_court st)) /\
    (p1 <> p2 ->
     time_on_court st' !! p1 = Some closed /\
     time_on_court st !! p2 = Some r2 /\
     time_on_court st' !! p2 = Some opened) /\
    (time_in r1 = None -> t = 1000 -> mpt = 1530 ->
     playing_time closed = playing_time r1 + 530 /\
     last (time_in_list closed) = Some 1530 /\
     last (time_out_list closed) = Some 1000).
Proof.
  intros H8 H1 H2 Hr1 [r2' Hr2] Hnd.
  set (closed := check_out t mpt (st_period st) r1).
  assert (Hmid : is_Some (<[p1 := closed]> (time_on_court st) !! p2)).
  { rewrite lookup_insert. destruct (decide (p1 = p2)); eauto. }
  destruct Hmid as [r2 Hmid].
  destruct (substitution_run home_id t mpt row st p1 p2 r1 r2 H1 H2 Hr1 Hmid)
    as [st' Hst'].
  exists st', closed, r2, (check_in t r2).
  destruct (substitution_Ok _ _ _ _ _ _ Hst')
    as (q1 & q2 & s1 & s2 & E1 & E2 & Es1 & Es2 & Hbank & _ & Htag & Hun).
  assert (q1 = p1) as -> by congruence. assert (q2 = p2) as -> by congruence.
  assert (s1 = r1) as -> by congruence.
  fold closed in Es2, Hbank. assert (s2 = r2) as -> by congruence.
  pose proof (check_out_closes t mpt (st_period st) r1) as Hclose. fold closed in Hclose.
  split. { unfold step_at. rewrite H8. exact Hst'. }
  split. { intros x. rewrite Htag. now apply sub_on_court_elem. }
  split; [exact Hun|]. split; [exact Hclose|]. split; [exact Hmid|].
  split; [apply check_in_opens|]. split; [exact Hbank|]. split.
  - intros Hne. rewrite Hbank.
    rewrite lookup_insert_ne in Hmid by assumption.
    rewrite lookup_insert_ne, !lookup_insert_eq by auto. auto.
  - intros Hnone -> ->. destruct Hclose as (Hp & Hin & _ & Hout & _).
    rewrite Hp, Hin, Hout, Hnone, !last_snoc. simpl. split; [lia | auto].
Qed.

(** The theorem at [starters_state]: player 1, an implicit starter,
    leaves for player 6 at 1000 with 1530 as period start. *)
Lemma substitution_transition_witness :
  exists (st' : State) (closed opened : PlayerTimeRecord),
    step_at sample_home_roster sample_visitor_roster 100 1000 1530
            sample_substitution starters_state = Ok st' /\
    home_on_court st' = [2; 3; 4; 5; 6] /\
    time_on_court st' !! 1 = Some closed /\
    playing_time closed = 530 /\
    time_in_list closed = [1530] /\ time_out_list closed = [1000] /\
    period_list closed = [2] /\
    time_on_court st' !! 6 = Some opened /\
    time_in opened = Some 1000 /\ time_in_list opened = [1000].
Proof.
  destruct (substitution_transition sample_home_roster sample_visitor_roster
              100 1000 1530 sample_substitution starters_state 1 6 new_record)
    as (st' & closed & r2 & opened & Hstep & _ & _ & Hclose & Hr2 & Hopen & _ & Hne & _).
  - reflexivity.
  - reflexivity.
  - reflexivity.
  - vm_compute. reflexivity.
  - exists new_record. vm_compute. reflexivity.
  - apply (bool_decide_unpack _). vm_compute. reflexivity.
  - exists st', closed, opened.
    destruct Hne as (Hp1 & Hp2 & Hp6); [discriminate|].
    assert (r2 = new_record) as ->.
    { assert (E : starters_state.(time_on_court) !! 6 = Some new_record)
        by (vm_compute; reflexivity).
      congruence. }
    destruct Hclose as (Hc1 & Hc2 & _ & Hc4 & Hc5).
    destruct Hopen as (Ho1 & Ho2 & _).
    split; [exact Hstep|].
    split. { vm_compute in Hstep. injection Hstep as <-. reflexivity. }
    split; [exact Hp1|]. split; [rewrite Hc1; reflexivity|].
    split; [rewrite Hc2; reflexivity|]. split; [rewrite Hc4; reflexivity|].
    split; [rewrite Hc5; reflexivity|]. split; [exact Hp6|].
    split; [exact Ho1 | rewrite Ho2; reflexivity].
Defined.

End Transitions.

(** ** Lineup / time-bank state machine: runs *)

Section Runs.

Local Open Scope Z_scope.

Variables (home_roster visitor_roster : list Z) (home_id : Z).

(** A successful period end closes each on-court player once. *)
Lemma close_players_spec (t per : Z) (l : list Z) :
  forall bank bank' : gmap Z PlayerTimeRecord,
  foldM (close_player t per) l bank = Ok bank' ->
  NoDup l /\
  (forall p, p ∈ l -> exists r s,
      bank !! p = Some r /\ time_in r = Some s /\
      bank' !! p = Some (close_at s t per (time_in_list r) r)) /\
  (forall q, q ∉ l -> bank' !! q = bank !! q).
Proof.
  induction l as [|p l IH]; simpl; intros bank bank' H.
  - injection H as <-. split; [constructor|]. split; [|reflexivity].
    intros p Hp. inversion Hp.
  - inv_bind H. unfold close_player in Ha. inv_bind Ha.
    apply lookup_record_Ok in Ha0. rename a0 into r.
    destruct (time_in r) as [s|] eqn:Hs; [|discriminate]. injection Ha as <-.
    destruct (IH _ _ H) as (Hnd & Hin & Hout).
    assert (Hp : p ∉ l).
    { intros Hp. destruct (Hin p Hp) as (r' & s' & Hr' & Hs' & _).
      rewrite lookup_insert_eq in Hr'. injection Hr' as <-. discriminate. }
    split; [now constructor|]. split.
    + intros q Hq. apply elem_of_cons in Hq as [->|Hq].
      * exists r, s. rewrite (Hout p Hp), lookup_insert_eq. auto.
      * destruct (Hin q Hq) as (r' & s' & Hr' & Hs' & Hb).
        rewrite lookup_insert_ne in Hr' by (intros ->; contradiction). eauto.
    + intros q Hq. rewrite not_elem_of_cons in Hq. destruct Hq as [Hqp Hq].
      rewrite (Hout q Hq). now apply lookup_insert_ne.
Qed.

Lemma end_of_period_Ok (t : Z) (st st' : State) :
  end_of_period t st = Ok st' ->
  foldM (close_player t (st_period st))
        (home_on_court st ++ visitor_on_court st) (time_on_court st) =
    Ok (time_on_court st') /\
  home_on_court st' = [] /\ visitor_on_court st' = [] /\
  st_period st' = st_period st + 1.
Proof.
  unfold end_of_period. intros H. inv_bind H. injection H as <-. auto.
Qed.

(** The successful runs of [discover]: nothing happens, or a roster
    player absent from the list of the team is added to it and checked
    in at [mpt]. *)
Lemma discover_Ok (mpt : Z) (o : option Z) (st st' : State) :
  discover home_roster visitor_roster mpt o st = Ok st' ->
  st' = st \/
  exists p r,
    o = Some p /\ (p ∈ home_roster \/ p ∈ visitor_roster) /\
    time_on_court st !! p = Some r /\
    time_on_court st' = <[p := check_in mpt r]> (time_on_court st) /\
    st_period st' = st_period st /\
    ((home_on_court st' = home_on_court st ++ [p] /\ (p ∉ home_on_court st) /\
      visitor_on_court st' = visitor_on_court st) \/
     (visitor_on_court st' = visitor_on_court st ++ [p] /\ (p ∉ visitor_on_court st) /\
      home_on_court st' = home_on_court st)).
Proof.
  unfold discover. destruct o as [p|]; [|intros [= <-]; now left].
  destruct (decide ((p ∈ home_roster) ∧ (p ∉ home_on_court st))) as [[H1 H2]|_].
  - intros H. inv_bind H. apply lookup_record_Ok in Ha. injection H as <-.
    right. exists p, a. simpl. auto 10.
  - destruct (decide ((p ∈ visitor_roster) ∧ (p ∉ visitor_on_court st))) as [[H1 H2]|_].
    + intros H. inv_bind H. apply lookup_record_Ok in Ha. injection H as <-.
      right. exists p, a. simpl. auto 10.
    + intros [= <-]. now left.
Qed.

(** A participant on neither roster is passed over. *)
Lemma discover_stranger (mpt p : Z) (st : State) :
  p ∉ home_roster -> p ∉ visitor_roster ->
  discover home_roster visitor_roster mpt (Some p) st = Ok st.
Proof.
  intros Hh Hv. unfold discover.
  rewrite decide_False by tauto. rewrite decide_False by tauto. reflexivity.
Qed.

Lemma step_Ok (row : PbpRow) (st st' : State) :
  step home_roster visitor_roster home_id row st = Ok st' ->
  exists t mpt,
    play_clock_to_seconds (pctimestring row) (period row) = Ok (t, mpt) /\
    step_at home_roster visitor_roster home_id t mpt row st = Ok st'.
Proof.
  unfold step. intros H. inv_bind H. destruct a as [t mpt]. eauto.
Qed.

(** The three branches of the loop body. *)
Lemma step_at_cases (t mpt : Z) (row : Event) (st st' : State) :
  step_at home_roster visitor_roster home_id t mpt row st = Ok st' ->
  (eventmsgtype row = 8 /\ substitution home_id t mpt row st = Ok st') \/
  (eventmsgtype row = 13 /\ end_of_period t st = Ok st') \/
  (eventmsgtype row <> 8 /\ eventmsgtype row <> 13 /\
   generic_play home_roster visitor_roster mpt row st = Ok st') \/
  (eventmsgtype row <> 8 /\ eventmsgtype row <> 13 /\ st' = st).
Proof.
  unfold step_at.
  destruct (Z.eqb_spec (eventmsgtype row) 8); [auto|].
  destruct (Z.eqb_spec (eventmsgtype row) 13); [auto|].
  destruct (eventmsgtype row <=? 5); [auto 6|].
  intros [= <-]. auto 6.
Qed.

(** *** The keys of the time bank never change *)

Lemma initial_bank_dom (l : list Z) : dom (initial_bank l) = list_to_set l.
Proof.
  unfold initial_bank.
  assert (H : forall m : gmap Z PlayerTimeRecord,
             dom (foldl (fun bank p => <[p := new_record]> bank) m l) =
             list_to_set l ∪ dom m).
  { induction l as [|p l IH]; intros m; simpl.
    - now rewrite (left_id_L ∅ (∪)).
    - rewrite IH, dom_insert_L.
      now rewrite (comm_L (∪) {[p]} (list_to_set l)), <- (assoc_L (∪)). }
  rewrite H, dom_empty_L. apply (right_id_L ∅ (∪)).
Qed.

Lemma initial_bank_lookup (l : list Z) (p : Z) (r : PlayerTimeRecord) :
  initial_bank l !! p = Some r -> r = new_record.
Proof.
  unfold initial_bank.
  assert (H : forall m : gmap Z PlayerTimeRecord,
             (forall r', m !! p = Some r' -> r' = new_record) ->
             foldl (fun bank p => <[p := new_record]> bank) m l !! p = Some r ->
             r = new_record).
  { induction l as [|q l IH]; intros m Hm; simpl; [apply Hm|].
    apply IH. intros r'. rewrite lookup_insert.
    destruct (decide (q = p)); [congruence | apply Hm]. }
  apply H. intros r'. rewrite lookup_empty. discriminate.
Qed.

Lemma discover_dom (mpt : Z) (o : option Z) (st st' : State) :
  discover home_roster visitor_roster mpt o st = Ok st' ->
  dom (time_on_court st') = dom (time_on_court st).
Proof.
  intros H. apply discover_Ok in H as [->|(p & r & _ & _ & Hr & -> & _)]; [reflexivity|].
  apply dom_insert_lookup_L. eauto.
Qed.

Lemma step_at_dom (t mpt : Z) (row : Event) (st st' : State) :
  step_at home_roster visitor_roster home_id t mpt row st = Ok st' ->
  dom (time_on_court st') = dom (time_on_court st).
Proof.
  intros H. apply step_at_cases in H as [[_ H]|[[_ H]|[(_ & _ & H)|(_ & _ & ->)]]].
  - apply substitution_Ok in H
      as (p1 & p2 & r1 & r2 & _ & _ & Hr1 & Hr2 & -> & _).
    rewrite dom_insert_lookup_L by eauto. apply dom_insert_lookup_L. eauto.
  - apply end_of_period_Ok in H as [H _].
    refine (foldM_invariant (close_player t (st_period st))
              (fun b => dom b = dom (time_on_court st)) _ _ _ _ eq_refl H).
    intros p b b' _ Hb Hc. unfold close_player in Hc. inv_bind Hc.
    apply lookup_record_Ok in Ha. destruct (time_in a); [|discriminate].
    injection Hc as <-. rewrite <- Hb. apply dom_insert_lookup_L. eauto.
  - unfold generic_play in H.
    refine (foldM_invariant (discover home_roster visitor_roster mpt)
              (fun s => dom (time_on_court s) = dom (time_on_court st)) _ _ _ _ eq_refl H).
    intros o s s' _ Hs Hd. rewrite <- Hs. eapply discover_dom; eassumption.
  - reflexivity.
Qed.

Lemma step_dom (row : PbpRow) (st st' : State) :
  step home_roster visitor_roster home_id row st = Ok st' ->
  dom (time_on_court st') = dom (time_on_court st).
Proof.
  intros H. apply step_Ok in H as (t & mpt & _ & H). eapply step_at_dom; eassumption.
Qed.

Lemma run_dom (rows : list PbpRow) (st st' : State) :
  foldM (step home_roster visitor_roster home_id) rows st = Ok st' ->
  dom (time_on_court st') = dom (time_on_court st).
Proof.
  intros H.
  refine (foldM_invariant (step home_roster visitor_roster home_id)
            (fun s => dom (time_on_court s) = dom (time_on_court st)) _ _ _ _ eq_refl H).
  intros row s s' _ Hs Hstep. rewrite <- Hs. eapply step_dom; eassumption.
Qed.

(** *** The on-court lists hold no player twice *)

Lemma NoDup_snoc_fresh (l : list Z) (p : Z) : NoDup l -> p ∉ l -> NoDup (l ++ [p]).
Proof.
  intros Hl Hp. apply NoDup_app. split; [assumption|]. split; [|apply NoDup_singleton].
  intros x Hx Hx'. apply list_elem_of_singleton in Hx'. now subst.
Qed.

Lemma step_at_on_court_NoDup (t mpt : Z) (row : Event) (st st' : State) :
  NoDup (home_on_court st) /\ NoDup (visitor_on_court st) ->
  step_at home_roster visitor_roster home_id t mpt row st = Ok st' ->
  NoDup (home_on_court st') /\ NoDup (visitor_on_court st').
Proof.
  intros Hst H.
  apply step_at_cases in H as [[_ H]|[[_ H]|[(_ & _ & H)|(_ & _ & ->)]]].
  - apply substitution_Ok in H as (p1 & p2 & _ & _ & _ & _ & _ & _ & _ & _ & Htag & Hun).
    unfold tagged_on_court, untagged_on_court in *. destruct Hst as [Hh Hv].
    destruct (decide (player1_team_id row = Some home_id));
      rewrite Htag, Hun; auto using sub_on_court_NoDup.
  - apply end_of_period_Ok in H as (_ & -> & -> & _). split; constructor.
  - unfold generic_play in H.
    refine (foldM_invariant (discover home_roster visitor_roster mpt)
              (fun s => NoDup (home_on_court s) /\ NoDup (visitor_on_court s))
              _ _ _ _ Hst H).
    intros o s s' _ [Hh Hv] Hd.
    apply discover_Ok in Hd
      as [->|(p & r & _ & _ & _ & _ & _ & [(-> & Hp & ->)|(-> & Hp & ->)])];
      auto using NoDup_snoc_fresh.
  - assumption.
Qed.

(** Every state reached from the initial one has duplicate-free on-court
    lists. *)
Lemma run_on_court_NoDup (rows : list PbpRow) (st' : State) :
  foldM (step home_roster visitor_roster home_id) rows
        (initial_state home_roster visitor_roster) = Ok st' ->
  NoDup (home_on_court st') /\ NoDup (visitor_on_court st').
Proof.
  intros H.
  refine (foldM_invariant (step home_roster visitor_roster home_id)
            (fun s => NoDup (home_on_court s) /\ NoDup (visitor_on_court s))
            _ _ _ _ _ H).
  - intros row s s' _ Hs Hstep. apply step_Ok in Hstep as (t & mpt & _ & Hstep).
    eapply step_at_on_court_NoDup; eassumption.
  - split; constructor.
Qed.

(** *** The period counter *)

Lemma generic_play_period (mpt : Z) (row : Event) (st st' : State) :
  generic_play home_roster visitor_roster mpt row st = Ok st' ->
  st_period st' = st_period st.
Proof.
  unfold generic_play. intros H.
  refine (foldM_invariant (discover home_roster visitor_roster mpt)
            (fun s => st_period s = st_period st) _ _ _ _ eq_refl H).
  intros o s s' _ Hs Hd. rewrite <- Hs.
  apply discover_Ok in Hd as [->|(p & r & _ & _ & _ & _ & Hp & _)]; auto.
Qed.

Lemma step_period (row : PbpRow) (st st' : State) :
  step home_roster visitor_roster home_id row st = Ok st' ->
  st_period st' = st_period st + (if decide (eventmsgtype row = 13) then 1 else 0).
Proof.
  intros H. apply step_Ok in H as (t & mpt & _ & H).
  apply step_at_cases in H as [[E H]|[[E H]|[(E8 & E13 & H)|(E8 & E13 & ->)]]].
  - rewrite decide_False by lia.
    apply substitution_Ok in H as (? & ? & ? & ? & _ & _ & _ & _ & _ & -> & _). lia.
  - rewrite decide_True by assumption.
    apply end_of_period_Ok in H as (_ & _ & _ & ->). reflexivity.
  - rewrite decide_False by assumption.
    rewrite (generic_play_period _ _ _ _ H). lia.
  - rewrite decide_False by assumption. lia.
Qed.

Lemma run_period (rows : list PbpRow) (st st' : State) :
  foldM (step home_roster visitor_roster home_id) rows st = Ok st' ->
  st_period st' = st_period st + count_period_ends rows.
Proof.
  revert st. induction rows as [|row rows IH]; simpl; intros st H.
  - injection H as <-. unfold count_period_ends. simpl. lia.
  - inv_bind H. rewrite (IH _ H), (step_period _ _ _ Ha).
    unfold count_period_ends. rewrite filter_cons.
    destruct (decide (eventmsgtype row = 13)); simpl length; lia.
Qed.

End Runs.

Section RunClaims.

Local Open Scope Z_scope.

Variables (home_roster visitor_roster : list Z) (home_id : Z).

(** *** What is written to a period history *)

Lemma substitution_period_list (t mpt : Z) (row : Event) (st st' : State) :
  substitution home_id t mpt row st = Ok st' ->
  exists p1 r1 r1',
    player1_id row = Some p1 /\
    time_on_court st !! p1 = Some r1 /\ time_on_court st' !! p1 = Some r1' /\
    period_list r1' = period_list r1 ++ [st_period st] /\
    forall p r r', p <> p1 ->
      time_on_court st !! p = Some r -> time_on_court st' !! p = Some r' ->
      period_list r' = period_list r.
Proof.
  intros H. apply substitution_Ok in H
    as (p1 & p2 & r1 & r2 & E1 & E2 & Hr1 & Hr2 & -> & _).
  rewrite lookup_insert in Hr2.
  destruct (decide (p1 = p2)) as [<-|Hne].
  - injection Hr2 as <-.
    exists p1, r1, (check_in t (check_out t mpt (st_period st) r1)).
    rewrite lookup_insert_eq. repeat split; auto.
    + simpl. destruct (check_out_closes t mpt (st_period st) r1) as (_ & _ & _ & _ & Hp).
      exact Hp.
    + intros p r r' Hp Hr Hr'. rewrite !lookup_insert_ne in Hr' by auto. congruence.
  - exists p1, r1, (check_out t mpt (st_period st) r1).
    rewrite lookup_insert_ne, lookup_insert_eq by auto. repeat split; auto.
    + destruct (check_out_closes t mpt (st_period st) r1) as (_ & _ & _ & _ & Hp).
      exact Hp.
    + intros p r r' Hp Hr Hr'.
      rewrite lookup_insert in Hr'. destruct (decide (p2 = p)) as [<-|Hne'].
      * injection Hr' as <-. simpl. congruence.
      * rewrite lookup_insert_ne in Hr' by auto. congruence.
Qed.

Lemma end_of_period_period_list (t : Z) (st st' : State) :
  end_of_period t st = Ok st' ->
  (forall p, p ∈ home_on_court st ++ visitor_on_court st ->
     exists r r', time_on_court st !! p = Some r /\ time_on_court st' !! p = Some r' /\
                  period_list r' = period_list r ++ [st_period st]) /\
  (forall p, p ∉ home_on_court st ++ visitor_on_court st ->
     time_on_court st' !! p = time_on_court st !! p).
Proof.
  intros H. apply end_of_period_Ok in H as [H _].
  apply close_players_spec in H as (_ & Hin & Hout). split; [|exact Hout].
  intros p Hp. destruct (Hin p Hp) as (r & s & Hr & _ & Hr'). eauto.
Qed.

Lemma generic_play_period_list (mpt : Z) (row : Event) (st st' : State) :
  generic_play home_roster visitor_roster mpt row st = Ok st' ->
  forall p r r',
    time_on_court st !! p = Some r -> time_on_court st' !! p = Some r' ->
    period_list r' = period_list r.
Proof.
  unfold generic_play. intros H p r r' Hr.
  revert r'.
  refine (foldM_invariant (discover home_roster visitor_roster mpt)
            (fun s => forall r', time_on_court s !! p = Some r' ->
                                 period_list r' = period_list r) _ _ _ _ _ H).
  - intros o s s' _ Hs Hd r'.
    apply discover_Ok in Hd as [->|(q & rq & _ & _ & Hq & -> & _)]; [apply Hs|].
    rewrite lookup_insert. destruct (decide (q = p)) as [->|_]; [|apply Hs].
    intros [= <-]. simpl. now apply Hs.
  - intros r'. congruence.
Qed.

Lemma step_period_list (row : PbpRow) (st st' : State) (p : Z)
    (r r' : PlayerTimeRecord) :
  step home_roster visitor_roster home_id row st = Ok st' ->
  time_on_court st !! p = Some r -> time_on_court st' !! p = Some r' ->
  period_list r' = period_list r \/ period_list r' = period_list r ++ [st_period st].
Proof.
  intros H Hr Hr'. apply step_Ok in H as (t & mpt & _ & H).
  apply step_at_cases in H as [[_ H]|[[_ H]|[(_ & _ & H)|(_ & _ & ->)]]].
  - apply substitution_period_list in H as (p1 & r1 & r1' & _ & H1 & H1' & Happ & Hother).
    destruct (decide (p = p1)) as [->|Hne].
    + right. congruence.
    + left. eapply Hother; eassumption.
  - apply end_of_period_period_list in H as [Hin Hout].
    destruct (decide (p ∈ home_on_court st ++ visitor_on_court st)) as [Hp|Hp].
    + right. destruct (Hin p Hp) as (s & s' & Hs & Hs' & Happ). congruence.
    + left. rewrite (Hout p Hp) in Hr'. congruence.
  - left. eapply generic_play_period_list; eassumption.
  - left. congruence.
Qed.

(** C10.  Take any sequence of rows the loop consumes from the initial
    state, one of its rows [row], and the rows [pre] consumed before it.
    When [row] is reached the period counter is one more than the number
    of period-end (13) rows in [pre], and [row] raises it only if it is
    itself a period end.  Whatever [row] appends to a period history is
    that counter: a substitution appends it for its outgoing player, a
    period end for every on-court player, and no record receives
    anything else.  So when the number of period ends in [pre] is not the
    row's own [period] less one, what is recorded differs from the row's
    [period]. *)
Theorem period_history_uses_internal_counter
    (pre post : list PbpRow) (row : PbpRow) (final : State) :
  foldM (step home_roster visitor_roster home_id) (pre ++ row :: post)
        (initial_state home_roster visitor_roster) = Ok final ->
  let recorded := 1 + count_period_ends pre in
  exists st st',
    foldM (step home_roster visitor_roster home_id) pre
          (initial_state home_roster visitor_roster) = Ok st /\
    step home_roster visitor_roster home_id row st = Ok st' /\
    st_period st = recorded /\
    st_period st' = st_period st + (if decide (eventmsgtype row = 13) then 1 else 0) /\
    (eventmsgtype row = 8 ->
     exists p1 r r',
       player1_id row = Some p1 /\
       time_on_court st !! p1 = Some r /\ time_on_court st' !! p1 = Some r' /\
       period_list r' = period_list r ++ [recorded]) /\
    (eventmsgtype row = 13 ->
     forall p, p ∈ home_on_court st ++ visitor_on_court st ->
       exists r r',
         time_on_court st !! p = Some r /\ time_on_court st' !! p = Some r' /\
         period_list r' = period_list r ++ [recorded]) /\
    (forall p r r',
       time_on_court st !! p = Some r -> time_on_court st' !! p = Some r' ->
       period_list r' = period_list r \/ period_list r' = period_list r ++ [recorded]) /\
    (count_period_ends pre <> period row - 1 -> recorded <> period row).
Proof.
  intros Hrun recorded.
  apply foldM_split in Hrun as (st & st' & Hpre & Hstep & _).
  exists st, st'. split; [exact Hpre|]. split; [exact Hstep|].
  assert (Hrec : st_period st = recorded).
  { rewrite (run_period _ _ _ _ _ _ Hpre). reflexivity. }
  split; [exact Hrec|]. split; [eapply step_period; eassumption|].
  rewrite <- Hrec. repeat split.
  - intros E. pose proof Hstep as H. apply step_Ok in H as (t & mpt & _ & H).
    unfold step_at in H. rewrite E in H. simpl in H.
    apply substitution_period_list in H as (p1 & r1 & r1' & ? & ? & ? & ? & _).
    eauto 10.
  - intros E. pose proof Hstep as H. apply step_Ok in H as (t & mpt & _ & H).
    unfold step_at in H. rewrite E in H. simpl in H.
    apply end_of_period_period_list in H as [Hin _]. exact Hin.
  - intros p r r'. eapply step_period_list; eassumption.
  - rewrite Hrec. unfold recorded. lia.
Qed.

(** *** Participants outside the rosters *)

Lemma initial_state_dom :
  dom (time_on_court (initial_state home_roster visitor_roster)) =
  list_to_set (home_roster ++ visitor_roster).
Proof. apply initial_bank_dom. Qed.

Lemma substitution_players_known (t mpt : Z) (row : Event) (st st' : State) (p : Z) :
  substitution home_id t mpt row st = Ok st' ->
  player1_id row = Some p \/ player2_id row = Some p ->
  p ∈ dom (time_on_court st).
Proof.
  intros H Hp. apply substitution_Ok in H
    as (p1 & p2 & r1 & r2 & E1 & E2 & Hr1 & Hr2 & _).
  apply elem_of_dom. destruct Hp as [Hp|Hp].
  - assert (p = p1) as -> by congruence. eauto.
  - assert (p = p2) as -> by congruence.
    rewrite lookup_insert in Hr2. destruct (decide (p1 = p2)) as [<-|]; eauto.
Qed.

Lemma unknown_substitute_stops_run (rows : list PbpRow) (row : PbpRow) (p : Z)
    (st' : State) :
  row ∈ rows -> eventmsgtype row = 8 ->
  player1_id row = Some p \/ player2_id row = Some p ->
  p ∉ home_roster -> p ∉ visitor_roster ->
  foldM (step home_roster visitor_roster home_id) rows
        (initial_state home_roster visitor_roster) <> Ok st'.
Proof.
  intros Hrow E Hp Hh Hv H.
  destruct (foldM_reach (step home_roster visitor_roster home_id)
              (fun s => dom (time_on_court s) =
                        list_to_set (home_roster ++ visitor_roster))
              rows row) with (s := initial_state home_roster visitor_roster) (s' := st')
    as (s1 & s2 & Hdom & Hstep); auto using initial_state_dom.
  - intros b s s' Hs Hb. rewrite <- Hs. eapply step_dom; eassumption.
  - apply step_Ok in Hstep as (t & mpt & _ & Hstep).
    unfold step_at in Hstep. rewrite E in Hstep. simpl in Hstep.
    eapply substitution_players_known in Hstep; [|exact Hp].
    rewrite Hdom, elem_of_list_to_set, elem_of_app in Hstep. tauto.
Qed.

End RunClaims.

(** C6 (as the code has it).  For a player id on neither roster: an event
    stream with a substitution (8) that names it as outgoing or incoming
    player makes both passes fail with an error; a generic play passes
    over it, leaving the state as it was and raising nothing. *)
Theorem unknown_participant_handling
    (home_roster visitor_roster : list Z) (p : Z) :
  p ∉ home_roster -> p ∉ visitor_roster ->
  (forall (pbp_df : list Event) (home_id visitor_id : Z) (e : Event),
      e ∈ pbp_df -> eventmsgtype e = 8 ->
      player1_id e = Some p \/ player2_id e = Some p ->
      (exists err, process_pbp_data pbp_df home_roster visitor_roster home_id visitor_id
                   = Err err) /\
      (exists err, pipeline pbp_df home_roster visitor_roster home_id visitor_id
                   = Err err)) /\
  (forall (mpt : Z) (st : State),
      discover home_roster visitor_roster mpt (Some p) st = Ok st).
Proof.
  intros Hh Hv. split; [|intros; now apply discover_stranger].
  intros pbp_df home_id visitor_id e He E Hp.
  assert (Hproc : exists err,
             process_pbp_data pbp_df home_roster visitor_roster home_id visitor_id = Err err).
  { destruct (process_pbp_data pbp_df home_roster visitor_roster home_id visitor_id)
      as [[sub_df rows]|err] eqn:Hrun; [exfalso | eauto].
    apply process_pbp_data_Ok in Hrun as (st & Hrun & _).
    apply run_state_machine_Ok in Hrun as (rs & Hmap & -> & Hfold).
    apply mapM_attach in Hmap as [Hmap _].
    rewrite <- Hmap in He. apply list_elem_of_fmap in He as (row & -> & Hrow).
    eapply unknown_substitute_stops_run; [| | | | |exact Hfold]; eauto.
    now rewrite sort_values_perm. }
  split; [exact Hproc|]. destruct Hproc as [err Herr].
  exists err. unfold pipeline. rewrite Herr. reflexivity.
Qed.

(** The theorem for the id 99 and the sample rosters: a lone substitution
    bringing 99 in stops the run, a play naming 99 changes nothing. *)
Lemma unknown_participant_handling_witness :
  (99 ∉ sample_home_roster) /\ (99 ∉ sample_visitor_roster) /\
  (exists err,
      process_pbp_data [mk_event 1 1 "9:00" 8 (Some 1) (Some 100) (Some 99) None]
        sample_home_roster sample_visitor_roster 100 200 = Err err) /\
  discover sample_home_roster sample_visitor_roster 2400 (Some 99) starters_state =
    Ok starters_state.
Proof.
  assert (Hh : 99 ∉ sample_home_roster) by (apply (bool_decide_unpack _); reflexivity).
  assert (Hv : 99 ∉ sample_visitor_roster) by (apply (bool_decide_unpack _); reflexivity).
  destruct (unknown_participant_handling sample_home_roster sample_visitor_roster 99 Hh Hv)
    as [Hsub Hplay].
  split; [exact Hh|]. split; [exact Hv|]. split; [|apply Hplay].
  apply (Hsub [mk_event 1 1 "9:00" 8 (Some 1) (Some 100) (Some 99) None] 100 200
              (mk_event 1 1 "9:00" 8 (Some 1) (Some 100) (Some 99) None)).
  - apply list_elem_of_singleton. reflexivity.
  - reflexivity.
  - right. reflexivity.
Defined.

(** C6 as stated fails: the second play of [stranger_game] names 99, who
    is on neither roster, and both passes complete. *)
Lemma unknown_participant_of_a_play_is_dropped :
  mk_event 2 1 "9:40" 4 (Some 4) (Some 100) (Some 5) (Some 99) ∈ stranger_game /\
  (99 ∉ sample_home_roster) /\ (99 ∉ sample_visitor_roster) /\
  exists player_df,
    pipeline stranger_game sample_home_roster sample_visitor_roster 100 200 =
      Ok player_df /\
    length player_df = 5%nat.
Proof.
  split; [right; left|].
  split; [apply (bool_decide_unpack _); reflexivity|].
  split; [apply (bool_decide_unpack _); reflexivity|].
  eexists. split; [vm_compute; reflexivity | reflexivity].
Qed.

(** The theorem at the start of a game: a substitution whose row says
    period 2 is recorded under period 1. *)
Lemma period_history_uses_internal_counter_witness :
  exists st' r',
    step sample_home_roster sample_visitor_roster 100 sample_substitution_row
         (initial_state sample_home_roster sample_visitor_roster) = Ok st' /\
    time_on_court st' !! 1%Z = Some r' /\
    period_list r' = [1%Z] /\
    period sample_substitution_row = 2%Z /\
    (1 + count_period_ends [])%Z <> period sample_substitution_row.
Proof.
  assert (Hrun : exists final,
             foldM (step sample_home_roster sample_visitor_roster 100)
                   ([] ++ sample_substitution_row :: [])
                   (initial_state sample_home_roster sample_visitor_roster) = Ok final)
    by (eexists; vm_compute; reflexivity).
  destruct Hrun as [final Hrun].
  destruct (period_history_uses_internal_counter
              sample_home_roster sample_visitor_roster 100 [] []
              sample_substitution_row final Hrun)
    as (st & st' & Hpre & Hstep & _ & _ & Hsub & _ & _ & Hne).
  injection Hpre as <-.
  destruct (Hsub eq_refl) as (p1 & r & r' & Hp1 & Hr & Hr' & Hlist).
  injection Hp1 as <-.
  assert (r = new_record) as ->.
  { apply (initial_bank_lookup (sample_home_roster ++ sample_visitor_roster) 1). exact Hr. }
  exists st', r'. split; [exact Hstep|]. split; [exact Hr'|].
  split; [rewrite Hlist; reflexivity|]. split; [reflexivity|].
  apply Hne. vm_compute. discriminate.
Defined.

(** ** Invariant of the time bank *)

Section Pairing.

Local Open Scope Z_scope.

Variable le : Z -> Z -> Prop.
Hypothesis le_refl : forall a, le a a.
Hypothesis le_trans : forall a b c, le a b -> le b c -> le a c.
Hypothesis le_of_Zle : forall a b, a <= b -> le a b.

Variables (home_roster visitor_roster : list Z) (home_id : Z).

Lemma interval_total_snoc (ins outs : list Z) (i o : Z) :
  length ins = length outs ->
  interval_total (ins ++ [i]) (outs ++ [o]) = interval_total ins outs + (i - o).
Proof.
  unfold interval_total. revert outs.
  induction ins as [|a ins IH]; intros [|b outs] Hlen; simpl in *; try discriminate.
  - lia.
  - rewrite IH by congruence. lia.
Qed.

Lemma StronglySorted_snoc {A : Type} (R : A -> A -> Prop) (l : list A) (a : A) :
  StronglySorted R l -> Forall (fun x => R x a) l -> StronglySorted R (l ++ [a]).
Proof.
  induction 1 as [|b l Hl IH Hb]; simpl; intros Ha.
  - repeat constructor.
  - apply Forall_cons in Ha as [Hba Ha].
    constructor; [now apply IH|].
    apply Forall_app. split; [assumption | now constructor].
Qed.

Lemma rec_ok_new (lo : Z) : rec_ok le lo new_record.
Proof.
  split; [constructor|]. split; [constructor|]. split; [constructor|].
  right. exists []. repeat split; constructor.
Qed.

Lemma rec_ok_weaken (lo t : Z) (r : PlayerTimeRecord) :
  le t lo -> rec_ok le lo r -> rec_ok le t r.
Proof.
  intros Ht (Hout & Hopen & Hsorted & Hpair).
  repeat split; try assumption;
    (eapply Forall_impl; [eassumption|]; intros x Hx; eapply le_trans; eassumption).
Qed.

Lemma rec_ok_check_out (t mpt per : Z) (r : PlayerTimeRecord) :
  le t mpt -> rec_ok le t r -> rec_ok le t (check_out t mpt per r).
Proof.
  intros Hmpt (Hout & Hopen & Hsorted & Hpair).
  assert (Hout' : Forall (le t) (time_out_list r ++ [t])).
  { apply Forall_app. split; [assumption|]. constructor; [apply le_refl | constructor]. }
  assert (Hsorted' : StronglySorted (fun a b => le b a) (time_out_list r ++ [t])).
  { now apply StronglySorted_snoc. }
  unfold check_out, broken, paired, open_entry in *.
  destruct (time_in r) as [s|] eqn:Hs;
    (split; [exact Hout'|]; split; [constructor|]; split; [exact Hsorted'|]);
    unfold broken, paired, open_entry; simpl.
  - destruct Hpair as [Hb|(ins & Hin & Hlen & Hpt & Hle)].
    + left. rewrite length_app. simpl in *. lia.
    + right. exists (ins ++ [s]). rewrite app_nil_r.
      apply Forall_cons in Hopen as [Hts _].
      split; [assumption|]. split; [rewrite !length_app; simpl; lia|].
      split; [rewrite interval_total_snoc by assumption; lia|].
      apply Forall2_app; [assumption|]. constructor; [assumption | constructor].
  - destruct Hpair as [Hb|(ins & Hin & Hlen & Hpt & Hle)].
    + left. rewrite !length_app. simpl in *. lia.
    + right. exists (ins ++ [mpt]). rewrite app_nil_r in *.
      split; [congruence|]. split; [rewrite !length_app; simpl; lia|].
      split; [rewrite interval_total_snoc by assumption; lia|].
      apply Forall2_app; [assumption|]. constructor; [assumption | constructor].
Qed.

Lemma rec_ok_close_at (s t per : Z) (r : PlayerTimeRecord) :
  time_in r = Some s -> rec_ok le t r ->
  rec_ok le t (close_at s t per (time_in_list r) r).
Proof.
  intros Hs Hr. pose proof (rec_ok_check_out t t per r (le_refl t) Hr) as H.
  unfold check_out in H. now rewrite Hs in H.
Qed.

Lemma rec_ok_check_in (t s : Z) (r : PlayerTimeRecord) :
  le t s -> rec_ok le t r -> rec_ok le t (check_in s r).
Proof.
  intros Hts (Hout & Hopen & Hsorted & Hpair).
  unfold check_in, broken, paired, open_entry in *.
  split; [exact Hout|]. split; [constructor; [assumption | constructor]|].
  split; [exact Hsorted|]. unfold broken, paired, open_entry. simpl.
  destruct (time_in r) as [s0|] eqn:Hs.
  - left. destruct Hpair as [Hb|(ins & Hin & Hlen & _)].
    + rewrite length_app. simpl in *. lia.
    + rewrite Hin, !length_app. simpl. lia.
  - destruct Hpair as [Hb|(ins & Hin & Hlen & Hpt & Hle)].
    + left. rewrite length_app. simpl in *. lia.
    + right. exists ins. rewrite app_nil_r in Hin. subst ins. auto.
Qed.

Lemma bank_ok_weaken (lo t : Z) (bank : gmap Z PlayerTimeRecord) :
  le t lo -> bank_ok le lo bank -> bank_ok le t bank.
Proof. intros Ht H p r Hr. eapply rec_ok_weaken; eauto. Qed.

Lemma bank_ok_insert (t : Z) (bank : gmap Z PlayerTimeRecord) (p : Z)
    (r : PlayerTimeRecord) :
  rec_ok le t r -> bank_ok le t bank -> bank_ok le t (<[p := r]> bank).
Proof.
  intros Hr H q rq. rewrite lookup_insert.
  destruct (decide (p = q)); [intros [= <-]; assumption | apply H].
Qed.

Lemma bank_ok_initial (lo : Z) (l : list Z) : bank_ok le lo (initial_bank l).
Proof.
  intros p r Hr. apply initial_bank_lookup in Hr as ->. apply rec_ok_new.
Qed.

(** One pass of the loop body at time [t], not after anything seen so
    far and not before the start of its period. *)
Lemma step_at_bank_ok (t mpt : Z) (row : Event) (st st' : State) :
  le t mpt -> bank_ok le t (time_on_court st) ->
  step_at home_roster visitor_roster home_id t mpt row st = Ok st' ->
  bank_ok le t (time_on_court st').
Proof.
  intros Hmpt Hst H.
  apply step_at_cases in H as [[_ H]|[[_ H]|[(_ & _ & H)|(_ & _ & ->)]]].
  - apply substitution_Ok in H
      as (p1 & p2 & r1 & r2 & _ & _ & Hr1 & Hr2 & -> & _).
    assert (Hmid : bank_ok le t
              (<[p1 := check_out t mpt (st_period st) r1]> (time_on_court st))).
    { apply bank_ok_insert; [|assumption]. apply rec_ok_check_out; eauto. }
    apply bank_ok_insert; [|assumption].
    apply rec_ok_check_in; [apply le_refl | eauto].
  - apply end_of_period_Ok in H as [H _].
    refine (foldM_invariant (close_player t (st_period st)) (bank_ok le t) _ _ _ _ Hst H).
    intros p b b' _ Hb Hc. unfold close_player in Hc. inv_bind Hc.
    apply lookup_record_Ok in Ha. destruct (time_in a) as [s|] eqn:Hs; [|discriminate].
    injection Hc as <-. apply bank_ok_insert; [|assumption].
    apply rec_ok_close_at; eauto.
  - unfold generic_play in H.
    refine (foldM_invariant (discover home_roster visitor_roster mpt)
              (fun s => bank_ok le t (time_on_court s)) _ _ _ _ Hst H).
    intros o s s' _ Hs Hd.
    apply discover_Ok in Hd as [->|(p & r & _ & _ & Hr & -> & _)]; [assumption|].
    apply bank_ok_insert; [|assumption]. apply rec_ok_check_in; eauto.
  - assumption.
Qed.

Lemma run_bank_ok (rows : list PbpRow) :
  StronglySorted row_le rows ->
  Forall (fun r : PbpRow => exists mpt,
            play_clock_to_seconds (pctimestring r) (period r) =
              Ok (game_time_remaining r, mpt)) rows ->
  Forall (fun r : PbpRow => clock_within_period le r) rows ->
  forall (lo : Z) (st st' : State),
    Forall (fun r : PbpRow => le (game_time_remaining r) lo) rows ->
    bank_ok le lo (time_on_court st) ->
    foldM (step home_roster visitor_roster home_id) rows st = Ok st' ->
    exists lo', bank_ok le lo' (time_on_court st').
Proof.
  induction 1 as [|row rows Hsorted IH Hrow]; intros Hclock Hwithin lo st st' Hlo Hst H.
  - injection H as <-. eauto.
  - simpl in H. inv_bind H.
    apply Forall_cons in Hclock as [[mpt' Hc] Hclock].
    apply Forall_cons in Hwithin as [Hw Hwithin].
    apply Forall_cons in Hlo as [Hl _].
    apply step_Ok in Ha as (t & mpt & Hc' & Ha).
    rewrite Hc in Hc'. injection Hc' as <- <-.
    eapply (IH Hclock Hwithin (game_time_remaining row)); [| |exact H].
    + eapply Forall_impl; [exact Hrow|]. intros r Hr.
      apply le_of_Zle. now apply row_le_game_time.
    + eapply step_at_bank_ok; [|eapply bank_ok_weaken; eassumption|exact Ha].
      eapply Hw. exact Hc.
Qed.

(** A record whose two lists have equal length is paired off and has no
    stored check-in. *)
Lemma rec_ok_closed (lo : Z) (r : PlayerTimeRecord) :
  rec_ok le lo r ->
  length (time_in_list r) = length (time_out_list r) ->
  playing_time r = interval_total (time_in_list r) (time_out_list r) /\
  Forall2 (fun i o => le o i) (time_in_list r) (time_out_list r) /\
  StronglySorted (fun a b => le b a) (time_out_list r).
Proof.
  intros (_ & _ & Hsorted & [Hb|(ins & Hin & Hlen & Hpt & Hle)]) Heq.
  - unfold broken in Hb. lia.
  - assert (Hopen : open_entry r = []).
    { destruct (open_entry r) as [|x l]; [reflexivity|].
      rewrite Hin, length_app in Heq. simpl in Heq. lia. }
    rewrite Hopen, app_nil_r in Hin. subst ins. auto.
Qed.

(** The state machine keeps the invariant from the initial state to the
    last event. *)
Lemma run_state_machine_bank_ok (pbp_df : list Event) (rows : list PbpRow) (st : State) :
  Forall (clock_within_period le) pbp_df ->
  run_state_machine pbp_df home_roster visitor_roster home_id = Ok (rows, st) ->
  exists lo, bank_ok le lo (time_on_court st).
Proof.
  intros Hwithin H. apply run_state_machine_Ok in H as (rs & Hmap & -> & Hfold).
  apply mapM_attach in Hmap as [Hmap Hclock].
  assert (Hperm := sort_values_perm rs).
  destruct (sort_values rs) as [|row rows] eqn:Hs.
  - injection Hfold as <-. exists 0. apply bank_ok_initial.
  - rewrite <- Hs in *.
    eapply (run_bank_ok (sort_values rs)) with (lo := game_time_remaining row);
      [apply sort_values_sorted | | | | |exact Hfold].
    + rewrite Forall_forall in *. intros r Hr. apply Hclock. now rewrite <- Hperm.
    + rewrite Forall_forall. rewrite Forall_forall in Hwithin.
      intros r Hr. apply Hwithin.
      rewrite <- Hmap. apply list_elem_of_fmap. exists r. split; [reflexivity|].
      now rewrite <- Hperm.
    + pose proof (sort_values_sorted rs) as Hsorted. rewrite Hs in *.
      inversion Hsorted as [|? ? _ Hall]; subst.
      constructor; [apply le_refl|].
      eapply Forall_impl; [exact Hall|]. intros r Hr.
      apply le_of_Zle. now apply row_le_game_time.
    + apply bank_ok_initial.
Qed.

End Pairing.

(** ** The interval frame *)

Section Frames.

Local Open Scope Z_scope.

Variables (home_roster visitor_roster : list Z) (home_id visitor_id : Z).

Lemma dict_keys_elem (l : list Z) (p : Z) : p ∈ dict_keys l <-> p ∈ l.
Proof.
  induction l as [|q l IH]; simpl; [reflexivity|].
  rewrite !elem_of_cons, list_elem_of_filter, IH.
  destruct (decide (p = q)); tauto.
Qed.

Lemma dict_keys_NoDup (l : list Z) : NoDup (dict_keys l).
Proof.
  induction l as [|q l IH]; simpl; constructor.
  - rewrite list_elem_of_filter. tauto.
  - now apply NoDup_filter.
Qed.

Lemma player_frame_Ok (p : Z) (r : PlayerTimeRecord) (ivs : list SubstitutionInterval) :
  player_frame home_roster home_id visitor_id p r = Ok ivs ->
  length (time_in_list r) = length (time_out_list r) /\
  Forall (fun iv => iv_player_id iv = p) ivs /\
  iv_time_in <$> ivs = time_in_list r /\
  iv_time_out <$> ivs = time_out_list r.
Proof.
  unfold player_frame.
  destruct (decide (length (time_in_list r) = length (time_out_list r))) as [Hlen|];
    [|discriminate].
  intros [= <-]. split; [assumption|].
  revert Hlen. generalize (time_in_list r) (time_out_list r).
  induction l as [|i ins IH]; intros [|o outs] Hlen; try discriminate.
  - repeat split; constructor.
  - destruct (IH outs) as (H1 & H2 & H3); [simpl in Hlen; congruence|].
    cbn. split; [constructor; auto|]. split; f_equal; assumption.
Qed.

Lemma rows_total_columns (ivs : list SubstitutionInterval) :
  rows_total ivs = interval_total (iv_time_in <$> ivs) (iv_time_out <$> ivs).
Proof.
  unfold rows_total, interval_total.
  induction ivs as [|iv ivs IH]; [reflexivity|].
  rewrite !fmap_cons. cbn [foldr zip_with]. now rewrite IH.
Qed.


Lemma frame_rows_concat (sub_df : Frame) (temp_df : list SubstitutionInterval) :
  frame_rows (concat_frame sub_df temp_df) = frame_rows sub_df ++ temp_df.
Proof. destruct sub_df; reflexivity. Qed.

(** The frame is the players' frames one after the other, in key
    order. *)
Lemma build_sub_df_Ok (keys : list Z) (bank : gmap Z PlayerTimeRecord) (sub_df : Frame) :
  build_sub_df home_roster home_id visitor_id keys bank = Ok sub_df ->
  exists frames,
    Forall2 (fun p ivs => exists r,
               bank !! p = Some r /\
               player_frame home_roster home_id visitor_id p r = Ok ivs) keys frames /\
    frame_rows sub_df = concat frames.
Proof.
  unfold build_sub_df.
  assert (H : forall acc,
             foldM (fun p sub_df =>
                      r ← lookup_record bank p;
                      temp_df ← player_frame home_roster home_id visitor_id p r;
                      Ok (concat_frame sub_df temp_df)) keys acc = Ok sub_df ->
             exists frames,
               Forall2 (fun p ivs => exists r,
                          bank !! p = Some r /\
                          player_frame home_roster home_id visitor_id p r = Ok ivs)
                       keys frames /\
               frame_rows sub_df = frame_rows acc ++ concat frames).
  { induction keys as [|p keys IH]; simpl; intros acc H.
    - injection H as <-. exists []. split; [constructor | now rewrite app_nil_r].
    - inv_bind H. inv_bind Ha. inv_bind Ha. injection Ha as <-.
      apply lookup_record_Ok in Ha0.
      destruct (IH _ H) as (frames & HF & Hrows).
      exists (a1 :: frames). split; [constructor; eauto|].
      rewrite Hrows, frame_rows_concat. simpl. now rewrite <- app_assoc. }
  intros Hb. destruct (H _ Hb) as (frames & HF & Hrows). eauto.
Qed.

Lemma filter_player_same (p : Z) (ivs : list SubstitutionInterval) :
  Forall (fun iv => iv_player_id iv = p) ivs ->
  filter (fun iv => iv_player_id iv = p) ivs = ivs.
Proof.
  induction 1 as [|iv ivs Hiv _ IH]; [reflexivity|].
  rewrite filter_cons, decide_True by assumption. now rewrite IH.
Qed.

Lemma filter_player_other (p q : Z) (ivs : list SubstitutionInterval) :
  q <> p -> Forall (fun iv => iv_player_id iv = q) ivs ->
  filter (fun iv => iv_player_id iv = p) ivs = [].
Proof.
  intros Hne. induction 1 as [|iv ivs Hiv _ IH]; [reflexivity|].
  rewrite filter_cons, decide_False by congruence. exact IH.
Qed.

(** Among frames laid out along distinct keys, the rows of a player are
    the frame at the player's key. *)
Lemma player_rows_of_frames (P : Z -> list SubstitutionInterval -> Prop)
    (keys : list Z) (frames : list (list SubstitutionInterval)) (p : Z) :
  (forall q ivs, P q ivs -> Forall (fun iv => iv_player_id iv = q) ivs) ->
  NoDup keys -> Forall2 P keys frames ->
  (p ∈ keys -> P p (filter (fun iv => iv_player_id iv = p) (concat frames))) /\
  (p ∉ keys -> filter (fun iv => iv_player_id iv = p) (concat frames) = []).
Proof.
  intros HP Hnd HF. induction HF as [|q ivs keys frames Hq HF IH]; simpl.
  - split; [inversion 1 | reflexivity].
  - apply NoDup_cons in Hnd as [Hq' Hnd]. destruct (IH Hnd) as [IHin IHout].
    rewrite filter_app. split.
    + intros Hp. apply elem_of_cons in Hp as [->|Hp].
      * rewrite IHout by assumption.
        rewrite filter_player_same, app_nil_r by eauto. assumption.
      * rewrite (filter_player_other p q) by (eauto; intros ->; contradiction).
        now apply IHin.
    + intros Hp. apply not_elem_of_cons in Hp as [Hpq Hp].
      rewrite (filter_player_other p q) by eauto. now apply IHout.
Qed.

(** The rows of a player in [sub_df] are the frame of the player's
    record; a player without a record has none. *)
Lemma sub_df_player_rows (bank : gmap Z PlayerTimeRecord) (sub_df : Frame) (p : Z) :
  dom bank = list_to_set (home_roster ++ visitor_roster) ->
  build_sub_df home_roster home_id visitor_id
    (dict_keys (home_roster ++ visitor_roster)) bank = Ok sub_df ->
  (forall r, bank !! p = Some r ->
     player_frame home_roster home_id visitor_id p r = Ok (player_rows p sub_df)) /\
  (bank !! p = None -> player_rows p sub_df = []).
Proof.
  intros Hdom H. apply build_sub_df_Ok in H as (frames & HF & Hrows).
  unfold player_rows. rewrite Hrows.
  destruct (player_rows_of_frames _ _ _ p
              (fun q ivs (H : exists r, bank !! q = Some r /\
                  player_frame home_roster home_id visitor_id q r = Ok ivs) =>
                 match H with
                 | ex_intro _ r (conj _ Hf) => proj1 (proj2 (player_frame_Ok q r ivs Hf))
                 end)
              (dict_keys_NoDup _) HF) as [Hin Hout].
  split.
  - intros r Hr. destruct Hin as (r' & Hr' & Hf).
    + apply dict_keys_elem.
      rewrite <- (elem_of_list_to_set (C:=gset Z)), <- Hdom.
      apply elem_of_dom. eauto.
    + congruence.
  - intros Hnone. apply Hout. rewrite dict_keys_elem.
    intros Hp. rewrite <- (elem_of_list_to_set (C:=gset Z)), <- Hdom in Hp.
    apply elem_of_dom in Hp as [r Hr]. congruence.
Qed.

Lemma final_bank_dom (pbp_df : list Event) (rows : list PbpRow) (st : State) :
  run_state_machine pbp_df home_roster visitor_roster home_id = Ok (rows, st) ->
  dom (time_on_court st) = list_to_set (home_roster ++ visitor_roster).
Proof.
  intros H. apply run_state_machine_Ok in H as (rs & _ & _ & Hfold).
  rewrite (run_dom _ _ _ _ _ _ Hfold). apply initial_bank_dom.
Qed.

End Frames.

(** ** The passes end to end *)

Section EndToEnd.

Local Open Scope Z_scope.

Variables (home_roster visitor_roster : list Z) (home_id visitor_id : Z).

(** C8.  When the state machine and the frame construction succeed, the
    intervals of every player with a record add up
    ([time_in - time_out] each) to the [playing_time] counter of that
    record in the final time bank. *)
Theorem playing_time_matches_intervals
    (pbp_df : list Event) (sub_df : Frame) (rows : list PbpRow) :
  process_pbp_data pbp_df home_roster visitor_roster home_id visitor_id =
    Ok (sub_df, rows) ->
  exists st,
    run_state_machine pbp_df home_roster visitor_roster home_id = Ok (rows, st) /\
    forall p r, time_on_court st !! p = Some r ->
      rows_total (player_rows p sub_df) = playing_time r.
Proof.
  intros H. apply process_pbp_data_Ok in H as (st & Hrun & Hbuild).
  exists st. split; [exact Hrun|]. intros p r Hr.
  destruct (run_state_machine_bank_ok (fun _ _ => True)) with
    (home_roster := home_roster) (visitor_roster := visitor_roster)
    (home_id := home_id) (pbp_df := pbp_df) (rows := rows) (st := st)
    as [lo Hok]; auto.
  { apply Forall_forall. intros e _ t mpt _. exact I. }
  destruct (sub_df_player_rows home_roster visitor_roster home_id visitor_id
              (time_on_court st) sub_df p) as [Hin _];
    [eapply final_bank_dom; eassumption | exact Hbuild |].
  apply Hin in Hr as Hframe.
  apply player_frame_Ok in Hframe as (Hlen & _ & Hi & Ho).
  destruct (rec_ok_closed (fun _ _ => True) lo r (Hok p r Hr) Hlen) as (Hpt & _).
  now rewrite rows_total_columns, Hi, Ho.
Qed.


(** C2 (as the code has it).  When both passes succeed, the lineup
    table has one row per input event, carrying that event's game id
    and number, in processing order, and every row has five home ids
    and five visitor ids. *)
Theorem lineup_table_shape (pbp_df : list Event) (player_df : list LineupRow) :
  pipeline pbp_df home_roster visitor_roster home_id visitor_id = Ok player_df ->
  length player_df = length pbp_df /\
  exists rows : list PbpRow,
    Permutation (row_event <$> rows) pbp_df /\
    StronglySorted row_le rows /\
    Forall2 (fun (lr : LineupRow) (row : PbpRow) =>
               lr_game_id lr = game_id row /\ lr_eventnum lr = eventnum row /\
               length (home_players lr) = 5%nat /\ length (visitor_players lr) = 5%nat)
            player_df rows.
Proof.
  unfold pipeline. intros H. inv_bind H. destruct a as [sub_df rows].
  apply process_pbp_data_Ok in Ha as (st & Hrun & _).
  apply run_state_machine_Ok in Hrun as (rs & Hmap & -> & _).
  apply mapM_attach in Hmap as [Hmap _].
  apply assign_rows_Ok in H.
  assert (Hperm : Permutation (row_event <$> sort_values rs) pbp_df).
  { rewrite <- Hmap. apply Permutation_map, sort_values_perm. }
  split.
  - rewrite (Forall2_length _ _ _ H), <- (Permutation_length Hperm).
    now rewrite length_fmap.
  - exists (sort_values rs). split; [exact Hperm|].
    split; [apply sort_values_sorted | exact H].
Qed.

End EndToEnd.

(** ** The theorems on the sample games *)

Lemma sample_clocks_within_period :
  Forall (clock_within_period Z.le) return_game.
Proof.
  repeat constructor; intros t mpt H; vm_compute in H; injection H as <- <-; lia.
Qed.

(** The sequencer theorem on [bench_play_game]. *)
Lemma events_processed_in_sorted_order_witness :
  exists rows st,
    run_state_machine bench_play_game sample_home_roster sample_visitor_roster 100 =
      Ok (rows, st) /\
    Permutation (row_event <$> rows) bench_play_game /\
    StronglySorted row_le rows.
Proof.
  assert (H : exists rows st,
             run_state_machine bench_play_game sample_home_roster sample_visitor_roster 100 =
               Ok (rows, st))
    by (do 2 eexists; vm_compute; reflexivity).
  destruct H as (rows & st & H). exists rows, st.
  destruct (events_processed_in_sorted_order _ _ _ _ _ _ H) as (Hperm & _ & Hsorted & _).
  auto.
Defined.

(** The counter of every player of [return_game] equals the summed
    length of the player's intervals. *)
Lemma playing_time_matches_intervals_witness :
  exists sub_df rows st,
    process_pbp_data return_game sample_home_roster sample_visitor_roster 100 200 =
      Ok (sub_df, rows) /\
    run_state_machine return_game sample_home_roster sample_visitor_roster 100 =
      Ok (rows, st) /\
    forall p r, time_on_court st !! p = Some r ->
      rows_total (player_rows p sub_df) = playing_time r.
Proof.
  assert (H : exists sub_df rows,
             process_pbp_data return_game sample_home_roster sample_visitor_roster 100 200 =
               Ok (sub_df, rows))
    by (do 2 eexists; vm_compute; reflexivity).
  destruct H as (sub_df & rows & H).
  destruct (playing_time_matches_intervals _ _ _ _ _ _ _ H) as (st & Hrun & Hsum).
  exists sub_df, rows, st. auto.
Defined.



(** The lineup table of [return_game]: seven rows of five and five. *)
Lemma lineup_table_shape_witness :
  exists player_df,
    pipeline return_game sample_home_roster sample_visitor_roster 100 200 = Ok player_df /\
    length player_df = length return_game /\
    Forall (fun lr => length (home_players lr) = 5%nat /\
                      length (visitor_players lr) = 5%nat) player_df.
Proof.
  assert (H : exists player_df,
             pipeline return_game sample_home_roster sample_visitor_roster 100 200 =
               Ok player_df)
    by (eexists; vm_compute; reflexivity).
  destruct H as (player_df & H). exists player_df. split; [exact H|].
  destruct (lineup_table_shape _ _ _ _ _ _ H) as (Hlen & rows & _ & _ & Hrows).
  split; [exact Hlen|].
  clear H Hlen. induction Hrows as [|lr row l l' (_ & _ & Hh & Hv) _ IH];
    constructor; auto.
Defined.

(** C2 as stated fails: in [bench_play_game] both passes succeed and the
    first row lists player 1 twice for the home team. *)
Lemma lineup_row_may_repeat_a_player :
  exists player_df lr,
    pipeline bench_play_game sample_home_roster sample_visitor_roster 100 200 =
      Ok player_df /\
    player_df !! 0%nat = Some lr /\
    home_players lr = [1; 1; 2; 3; 4]%Z /\
    ~ NoDup (home_players lr).
Proof.
  do 2 eexists. split; [vm_compute; reflexivity|].
  split; [reflexivity|]. split; [reflexivity|].
  simpl. intros H. apply NoDup_cons in H as [H _]. apply H. left.
Qed.

(** * Further properties *)

(** ** Clock strings *)




(** X2.  Only the first two pieces of a clock are read: whatever follows
    a second colon, literal or not, changes nothing. *)
Theorem clock_pieces_after_second_colon_ignored (m s : uint) (rest : string) (p : Z) :
  play_clock_to_seconds
    (String.append (NilZero.string_of_uint m)
       (String ":" (String.append (NilZero.string_of_uint s) (String ":" rest)))) p =
  play_clock_to_seconds
    (String.append (NilZero.string_of_uint m) (String ":" (NilZero.string_of_uint s))) p.
Proof.
  unfold play_clock_to_seconds.
  rewrite !split_colon_app by apply split_colon_literal.
  rewrite split_colon_literal. reflexivity.
Qed.

(** ** Malformed clocks come first *)




(** ** Overtime *)

Lemma row_le_refl (a : PbpRow) : row_le a a.
Proof. unfold row_le. lia. Qed.

(** In a sorted frame a row with more time remaining stands before one
    with less. *)
Lemma sorted_precedes (rows : list PbpRow) (a b : PbpRow) :
  StronglySorted row_le rows -> a ∈ rows -> b ∈ rows ->
  game_time_remaining a < game_time_remaining b ->
  exists l1 l2 l3, rows = l1 ++ b :: l2 ++ a :: l3.
Proof.
  intros Hsorted Ha Hb Hlt.
  assert (Hnle : ~ row_le a b) by (unfold row_le; lia).
  induction Hsorted as [|x rows Hrows IH Hx]; [inversion Ha|].
  rewrite Forall_forall in Hx.
  apply elem_of_cons in Ha as [->|Ha].
  - apply elem_of_cons in Hb as [->|Hb]; [lia|]. exfalso. auto.
  - apply elem_of_cons in Hb as [->|Hb].
    + apply list_elem_of_split in Ha as (l2 & l3 & ->). now exists [], l2, l3.
    + destruct (IH Ha Hb) as (l1 & l2 & l3 & ->). now exists (x :: l1), l2, l3.
Qed.

(** X4.  The fourth period and every overtime share one time scale: an
    overtime event is consumed before any fourth-period event that has
    less time on its clock. *)
Theorem overtime_event_precedes_fourth_period_event
    (pbp_df : list Event) (home_roster visitor_roster : list Z) (home_id : Z)
    (rows : list PbpRow) (st : State) (a b : PbpRow) (ma sa mb sb : uint) :
  run_state_machine pbp_df home_roster visitor_roster home_id = Ok (rows, st) ->
  a ∈ rows -> b ∈ rows ->
  period a = 4 -> 5 <= period b ->
  pctimestring a =
    String.append (NilZero.string_of_uint ma) (String ":" (NilZero.string_of_uint sa)) ->
  pctimestring b =
    String.append (NilZero.string_of_uint mb) (String ":" (NilZero.string_of_uint sb)) ->
  60 * Z.of_uint ma + Z.of_uint sa < 60 * Z.of_uint mb + Z.of_uint sb ->
  exists l1 l2 l3, rows = l1 ++ b :: l2 ++ a :: l3.
Proof.
  intros Hrun Ha Hb Hpa Hpb Hca Hcb Hlt.
  apply run_state_machine_Ok in Hrun as (rs & Hmap & -> & _).
  apply mapM_attach in Hmap as [_ Hclock]. rewrite Forall_forall in Hclock.
  apply sorted_precedes; auto using sort_values_sorted.
  destruct (Hclock a) as [mpta Ea]; [now rewrite <- (sort_values_perm rs)|].
  destruct (Hclock b) as [mptb Eb]; [now rewrite <- (sort_values_perm rs)|].
  rewrite Hca, play_clock_to_seconds_digits, Hpa in Ea.
  rewrite Hcb, play_clock_to_seconds_digits in Eb.
  destruct (Z.leb_spec (period b) 4); [lia|].
  simpl in Ea. injection Ea as Ea _. injection Eb as Eb _. lia.
Qed.

(** The theorem on [overtime_game]: the overtime play at 4:00 is consumed
    before the fourth-period play at 3:00. *)
Lemma overtime_event_precedes_fourth_period_event_witness :
  exists (rows : list PbpRow) (st : State) (a b : PbpRow),
    run_state_machine overtime_game sample_home_roster sample_visitor_roster 100 =
      Ok (rows, st) /\
    period a = 4 /\ period b = 5 /\
    exists l1 l2 l3, rows = l1 ++ b :: l2 ++ a :: l3.
Proof.
  set (a := {| row_event := mk_event 1 4 "3:00" 1 (Some 1) (Some 100) None None;
               game_time_remaining := 180 |}).
  set (b := {| row_event := mk_event 2 5 "4:00" 1 (Some 2) (Some 100) None None;
               game_time_remaining := 240 |}).
  assert (H : exists rows st,
             run_state_machine overtime_game sample_home_roster sample_visitor_roster 100 =
               Ok (rows, st) /\ a ∈ rows /\ b ∈ rows).
  { do 2 eexists. split; [vm_compute; reflexivity|]. split; [right; left | left]. }
  destruct H as (rows & st & Hrun & Ha & Hb).
  exists rows, st, a, b. split; [exact Hrun|]. split; [reflexivity|]. split; [reflexivity|].
  apply (overtime_event_precedes_fourth_period_event
           overtime_game sample_home_roster sample_visitor_roster 100 rows st a b
           (D3 Nil) (D0 (D0 Nil)) (D4 Nil) (D0 (D0 Nil)) Hrun Ha Hb);
    [reflexivity | subst a b; cbn; lia | reflexivity | reflexivity | cbn; lia].
Defined.

(** ** Rosters *)

Lemma NoDup_fmap_elem_inj {A : Type} (f : A -> Z) (l : list A) (a b : A) :
  NoDup (f <$> l) -> a ∈ l -> b ∈ l -> f a = f b -> a = b.
Proof.
  induction l as [|c l IH]; [inversion 2|].
  rewrite fmap_cons, NoDup_cons. intros [Hc Hl] Ha Hb E.
  apply elem_of_cons in Ha as [->|Ha]; apply elem_of_cons in Hb as [->|Hb]; auto.
  - exfalso. apply Hc. rewrite E. apply list_elem_of_fmap. eauto.
  - exfalso. apply Hc. rewrite <- E. apply list_elem_of_fmap. eauto.
Qed.

Lemma NoDup_fmap_filter {A : Type} (f : A -> Z) (P : A -> Prop)
    `{!forall x, Decision (P x)} (l : list A) :
  NoDup (f <$> l) -> NoDup (f <$> filter P l).
Proof.
  induction l as [|a l IH]; [constructor|].
  rewrite fmap_cons, NoDup_cons, filter_cons. intros [Ha Hl].
  destruct (decide (P a)); [|auto].
  rewrite fmap_cons. constructor; [|auto].
  intros Hin. apply Ha. apply list_elem_of_fmap in Hin as (x & -> & Hx).
  apply list_elem_of_filter in Hx as [_ Hx]. apply list_elem_of_fmap. eauto.
Qed.

Lemma filter_two_lengths {A : Type} (P Q : A -> Prop)
    `{!forall x, Decision (P x)} `{!forall x, Decision (Q x)} (l : list A) :
  (forall x, P x -> Q x -> False) ->
  (length (filter P l) + length (filter Q l) <= length l)%nat.
Proof.
  intros Hex. induction l as [|a l IH]; [simpl; lia|].
  rewrite !filter_cons.
  destruct (decide (P a)), (decide (Q a)); simpl; try lia. exfalso. eauto.
Qed.

(** X5.  A player is on a roster exactly when a box-score row lists the
    player under that team.  When the two team ids differ and no player
    id occurs twice in the box score, neither roster repeats a player,
    no player is on both, and together they are no longer than the box
    score. *)
Theorem get_rosters_spec (home_team_id visitor_team_id : Z)
    (box_score_df : list BoxScoreRow) :
  let home_roster := (get_rosters home_team_id visitor_team_id box_score_df).1 in
  let visitor_roster := (get_rosters home_team_id visitor_team_id box_score_df).2 in
  (forall p, p ∈ home_roster <->
     exists r, r ∈ box_score_df /\ bs_team_id r = home_team_id /\ bs_player_id r = p) /\
  (forall p, p ∈ visitor_roster <->
     exists r, r ∈ box_score_df /\ bs_team_id r = visitor_team_id /\ bs_player_id r = p) /\
  (home_team_id <> visitor_team_id -> NoDup (bs_player_id <$> box_score_df) ->
   NoDup home_roster /\ NoDup visitor_roster /\
   (forall p, p ∈ home_roster -> p ∉ visitor_roster) /\
   (length home_roster + length visitor_roster <= length box_score_df)%nat).
Proof.
  cbv zeta. unfold get_rosters. cbn [fst snd].
  assert (Hmem : forall team p,
             p ∈ bs_player_id <$> filter (fun r => bs_team_id r = team) box_score_df <->
             exists r, r ∈ box_score_df /\ bs_team_id r = team /\ bs_player_id r = p).
  { intros team p. rewrite list_elem_of_fmap. split.
    - intros (r & -> & Hr). apply list_elem_of_filter in Hr as [Ht Hr]. eauto.
    - intros (r & Hr & Ht & <-). exists r. split; [reflexivity|].
      apply list_elem_of_filter. auto. }
  split; [apply Hmem|]. split; [apply Hmem|].
  intros Hne Hnd. split; [now apply NoDup_fmap_filter|].
  split; [now apply NoDup_fmap_filter|]. split.
  - intros p Hh Hv. apply Hmem in Hh as (r1 & Hr1 & Ht1 & Hp1).
    apply Hmem in Hv as (r2 & Hr2 & Ht2 & Hp2).
    assert (r1 = r2) by (eapply NoDup_fmap_elem_inj; eauto; congruence).
    congruence.
  - rewrite !length_fmap. apply filter_two_lengths. congruence.
Qed.

(** The theorem on [sample_box_score]. *)
Lemma get_rosters_spec_witness :
  get_rosters 100 200 sample_box_score = ([1; 2], [11; 12]) /\
  NoDup (get_rosters 100 200 sample_box_score).1 /\
  NoDup (get_rosters 100 200 sample_box_score).2 /\
  (forall p, p ∈ (get_rosters 100 200 sample_box_score).1 ->
             p ∉ (get_rosters 100 200 sample_box_score).2).
Proof.
  split; [reflexivity|].
  destruct (get_rosters_spec 100 200 sample_box_score) as (_ & _ & H).
  destruct H as (H1 & H2 & H3 & _).
  - discriminate.
  - apply (bool_decide_unpack _). reflexivity.
  - auto.
Defined.

(** ** Records only change by check-outs and check-ins *)

Section Evolution.

Local Open Scope Z_scope.

Variables (home_roster visitor_roster : list Z) (home_id : Z).

Lemma evolves_trans (r1 r2 r3 : PlayerTimeRecord) :
  evolves r1 r2 -> evolves r2 r3 -> evolves r1 r3.
Proof.
  intros H12 H23. induction H23; [assumption | constructor; auto ..].
Qed.

Lemma close_at_check_out (s t mpt per : Z) (r : PlayerTimeRecord) :
  time_in r = Some s -> close_at s t per (time_in_list r) r = check_out t mpt per r.
Proof. intros H. unfold check_out. now rewrite H. Qed.

Lemma step_at_evolves (t mpt : Z) (row : Event) (st st' : State) (p : Z)
    (r : PlayerTimeRecord) :
  step_at home_roster visitor_roster home_id t mpt row st = Ok st' ->
  time_on_court st !! p = Some r ->
  exists r', time_on_court st' !! p = Some r' /\ evolves r r'.
Proof.
  intros H Hr.
  apply step_at_cases in H as [[_ H]|[[_ H]|[(_ & _ & H)|(_ & _ & ->)]]].
  - apply substitution_Ok in H
      as (p1 & p2 & r1 & r2 & _ & _ & Hr1 & Hr2 & -> & _).
    rewrite lookup_insert in Hr2. rewrite !lookup_insert.
    destruct (decide (p2 = p)) as [->|Hne2].
    + eexists. split; [reflexivity|]. constructor.
      destruct (decide (p1 = p)) as [->|Hne1].
      * injection Hr2 as <-. assert (r1 = r) as -> by congruence.
        constructor. constructor.
      * assert (r2 = r) as -> by congruence. constructor.
    + destruct (decide (p1 = p)) as [->|Hne1].
      * eexists. split; [reflexivity|]. assert (r1 = r) as -> by congruence.
        constructor. constructor.
      * exists r. split; [assumption | constructor].
  - apply end_of_period_Ok in H as [H _].
    apply close_players_spec in H as (_ & Hin & Hout).
    destruct (decide (p ∈ home_on_court st ++ visitor_on_court st)) as [Hp|Hp].
    + destruct (Hin p Hp) as (r0 & s & Hr0 & Hs & Hr').
      assert (r0 = r) as -> by congruence.
      rewrite (close_at_check_out s t t) in Hr' by assumption.
      eexists. split; [exact Hr'|]. constructor. constructor.
    + exists r. rewrite (Hout p Hp). split; [assumption | constructor].
  - unfold generic_play in H.
    refine (foldM_invariant (discover home_roster visitor_roster mpt)
              (fun s => exists r', time_on_court s !! p = Some r' /\ evolves r r')
              _ _ _ _ _ H).
    + intros o s s' _ (r' & Hr' & Hev) Hd.
      apply discover_Ok in Hd as [->|(q & rq & _ & _ & Hq & -> & _)]; [eauto|].
      rewrite lookup_insert. destruct (decide (q = p)) as [->|_]; [|eauto].
      assert (rq = r') as -> by congruence.
      eexists. split; [reflexivity|]. now constructor.
    + exists r. split; [assumption | constructor].
  - exists r. split; [assumption | constructor].
Qed.

Lemma run_evolves (rows : list PbpRow) (st st' : State) (p : Z) (r : PlayerTimeRecord) :
  foldM (step home_roster visitor_roster home_id) rows st = Ok st' ->
  time_on_court st !! p = Some r ->
  exists r', time_on_court st' !! p = Some r' /\ evolves r r'.
Proof.
  intros H Hr.
  refine (foldM_invariant (step home_roster visitor_roster home_id)
            (fun s => exists r', time_on_court s !! p = Some r' /\ evolves r r')
            _ _ _ _ _ H).
  - intros row s s' _ (r1 & Hr1 & Hev) Hstep.
    apply step_Ok in Hstep as (t & mpt & _ & Hstep).
    destruct (step_at_evolves _ _ _ _ _ _ _ Hstep Hr1) as (r2 & Hr2 & Hev2).
    exists r2. split; [assumption|]. eapply evolves_trans; eassumption.
  - exists r. split; [assumption | constructor].
Qed.

(** Every record of a reachable state comes from the empty record. *)
Lemma reachable_record (rows : list PbpRow) (st : State) (p : Z) (r : PlayerTimeRecord) :
  foldM (step home_roster visitor_roster home_id) rows
        (initial_state home_roster visitor_roster) = Ok st ->
  time_on_court st !! p = Some r -> evolves new_record r.
Proof.
  intros H Hr.
  assert (Hp : is_Some (time_on_court (initial_state home_roster visitor_roster) !! p)).
  { apply elem_of_dom. rewrite <- (run_dom _ _ _ _ _ _ H). apply elem_of_dom. eauto. }
  destruct Hp as [r0 Hr0].
  pose proof (initial_bank_lookup _ _ _ Hr0) as ->.
  destruct (run_evolves _ _ _ _ _ H Hr0) as (r' & Hr' & Hev). congruence.
Qed.

Lemma evolves_prefix (r r' : PlayerTimeRecord) :
  evolves r r' ->
  time_in_list r `prefix_of` time_in_list r' /\
  time_out_list r `prefix_of` time_out_list r' /\
  period_list r `prefix_of` period_list r'.
Proof.
  induction 1 as [r|r r' t mpt per _ (Hi & Ho & Hp)|r r' s _ (Hi & Ho & Hp)].
  - repeat split; reflexivity.
  - unfold check_out. destruct (time_in r'); simpl;
      repeat split; auto using prefix_app_r.
  - simpl. repeat split; auto using prefix_app_r.
Qed.

Lemma evolves_lengths (r r' : PlayerTimeRecord) :
  evolves r r' ->
  length (period_list r) = length (time_out_list r) ->
  (length (time_out_list r) + length (open_entry r) <= length (time_in_list r))%nat ->
  length (period_list r') = length (time_out_list r') /\
  (length (time_out_list r') + length (open_entry r') <= length (time_in_list r'))%nat.
Proof.
  intros Hev H1 H2.
  induction Hev as [r|r r' t mpt per _ IH|r r' s _ IH]; [auto|..];
    destruct (IH H1 H2) as [IH1 IH2]; unfold check_out, check_in, open_entry in *.
  - destruct (time_in r'); simpl in *; rewrite ?length_app; simpl; lia.
  - destruct (time_in r'); simpl in *; rewrite ?length_app; simpl; lia.
Qed.

Lemma evolves_broken (r r' : PlayerTimeRecord) :
  evolves r r' -> broken r -> broken r'.
Proof.
  intros Hev Hb.
  induction Hev as [r|r r' t mpt per _ IH|r r' s _ IH]; [assumption|..];
    specialize (IH Hb); unfold broken, check_out, check_in, open_entry in *.
  - destruct (time_in r'); simpl in *; rewrite ?length_app; simpl; lia.
  - destruct (time_in r'); simpl in *; rewrite ?length_app; simpl; lia.
Qed.

(** X6.  The histories of a record are append-only: whatever rows the
    loop consumes, every record present before is present after, and its
    check-in, check-out and period lists before are prefixes of those
    after.  An interval once paired off is never altered by a later
    event. *)
Theorem histories_are_append_only (rows : list PbpRow) (st st' : State) (p : Z)
    (r : PlayerTimeRecord) :
  foldM (step home_roster visitor_roster home_id) rows st = Ok st' ->
  time_on_court st !! p = Some r ->
  exists r',
    time_on_court st' !! p = Some r' /\
    time_in_list r `prefix_of` time_in_list r' /\
    time_out_list r `prefix_of` time_out_list r' /\
    period_list r `prefix_of` period_list r'.
Proof.
  intros H Hr. destruct (run_evolves _ _ _ _ _ H Hr) as (r' & Hr' & Hev).
  exists r'. split; [assumption|]. now apply evolves_prefix.
Qed.

(** X7.  In every state reached from the initial one, each record has as
    many period entries as check-outs, and at least as many check-ins as
    check-outs, one more when a check-in is stored. *)
Theorem record_lengths (rows : list PbpRow) (st : State) (p : Z) (r : PlayerTimeRecord) :
  foldM (step home_roster visitor_roster home_id) rows
        (initial_state home_roster visitor_roster) = Ok st ->
  time_on_court st !! p = Some r ->
  length (period_list r) = length (time_out_list r) /\
  (length (time_out_list r) + length (open_entry r) <= length (time_in_list r))%nat.
Proof.
  intros H Hr. apply (evolves_lengths new_record r); [|reflexivity | simpl; lia].
  eapply reachable_record; eassumption.
Qed.

(** *** On-court lists *)

Lemma py_remove_subset (x y : Z) (l : list Z) : y ∈ py_remove x l -> y ∈ l.
Proof.
  induction l as [|a l IH]; simpl; [auto|].
  destruct (decide (x = a)); [now right|].
  rewrite !elem_of_cons. intros [->|Hy]; auto.
Qed.

Lemma sub_on_court_subset (p1 p2 x : Z) (l : list Z) :
  x ∈ sub_on_court p1 p2 l -> x = p2 \/ x ∈ l.
Proof.
  unfold sub_on_court.
  assert (Hoc : forall y, y ∈ (if decide (p1 ∈ l) then py_remove p1 l else l) -> y ∈ l).
  { intros y. destruct (decide (p1 ∈ l)); [apply py_remove_subset | auto]. }
  destruct (decide (p2 ∈ _)).
  - intros Hx. right. now apply Hoc.
  - rewrite elem_of_app, list_elem_of_singleton. intros [Hx| ->]; auto.
Qed.

Lemma step_at_on_court_known (t mpt : Z) (row : Event) (st st' : State) :
  (forall p, p ∈ home_on_court st ++ visitor_on_court st ->
             p ∈ dom (time_on_court st)) ->
  step_at home_roster visitor_roster home_id t mpt row st = Ok st' ->
  forall p, p ∈ home_on_court st' ++ visitor_on_court st' ->
            p ∈ dom (time_on_court st').
Proof.
  intros Hst H. pose proof (step_at_dom _ _ _ _ _ _ _ _ H) as Hdom. rewrite Hdom.
  apply step_at_cases in H as [[_ H]|[[_ H]|[(_ & _ & H)|(_ & _ & ->)]]].
  - pose proof (fun q => substitution_players_known _ _ _ _ _ _ q H) as Hknown.
    apply substitution_Ok in H
      as (p1 & p2 & _ & _ & _ & E2 & _ & _ & _ & _ & Htag & Hun).
    unfold tagged_on_court, untagged_on_court in *.
    intros p Hp.
    assert (Hcase : p = p2 \/ p ∈ home_on_court st ++ visitor_on_court st).
    { rewrite elem_of_app in *.
      destruct (decide (player1_team_id row = Some home_id));
        rewrite Htag, Hun in Hp; destruct Hp as [Hp|Hp];
        try (apply sub_on_court_subset in Hp as [->|Hp']); auto. }
    destruct Hcase as [->|Hp']; [apply Hknown; auto | apply Hst; exact Hp'].
  - apply end_of_period_Ok in H as (_ & -> & -> & _). intros p Hp. inversion Hp.
  - unfold generic_play in H. rewrite <- Hdom.
    refine (foldM_invariant (discover home_roster visitor_roster mpt)
              (fun s => forall p, p ∈ home_on_court s ++ visitor_on_court s ->
                                  p ∈ dom (time_on_court s)) _ _ _ _ Hst H).
    intros o s s' _ Hs Hd p.
    pose proof (discover_dom _ _ _ _ _ _ Hd) as Hdom'. rewrite Hdom'.
    apply discover_Ok in Hd
      as [->|(q & rq & _ & _ & Hq & _ & _ & [(-> & _ & ->)|(-> & _ & ->)])];
      [apply Hs|..]; rewrite !elem_of_app, ?list_elem_of_singleton;
      intros Hp; assert (Hcase : p = q \/ p ∈ home_on_court s ++ visitor_on_court s)
        by (rewrite elem_of_app; tauto);
      (destruct Hcase as [->|Hp']; [apply elem_of_dom; eauto | now apply Hs]).
  - exact Hst.
Qed.

Lemma reachable_on_court_known (rows : list PbpRow) (st : State) :
  foldM (step home_roster visitor_roster home_id) rows
        (initial_state home_roster visitor_roster) = Ok st ->
  forall p, p ∈ home_on_court st ++ visitor_on_court st ->
    p ∈ home_roster ++ visitor_roster /\ is_Some (time_on_court st !! p).
Proof.
  intros H.
  assert (Hknown : forall p, p ∈ home_on_court st ++ visitor_on_court st ->
                             p ∈ dom (time_on_court st)).
  { refine (foldM_invariant (step home_roster visitor_roster home_id)
              (fun s => forall p, p ∈ home_on_court s ++ visitor_on_court s ->
                                  p ∈ dom (time_on_court s)) _ _ _ _ _ H).
    - intros row s s' _ Hs Hstep. apply step_Ok in Hstep as (t & mpt & _ & Hstep).
      eapply step_at_on_court_known; eassumption.
    - intros p Hp. inversion Hp. }
  intros p Hp. specialize (Hknown p Hp). split; [|now apply elem_of_dom].
  rewrite (run_dom _ _ _ _ _ _ H), initial_state_dom in Hknown.
  now apply elem_of_list_to_set in Hknown.
Qed.

(** X8.  In every state reached from the initial one, neither on-court
    list holds a player twice, and every on-court player is a roster
    player with a record in the time bank. *)
Theorem on_court_lists_are_sound (rows : list PbpRow) (st : State) :
  foldM (step home_roster visitor_roster home_id) rows
        (initial_state home_roster visitor_roster) = Ok st ->
  NoDup (home_on_court st) /\ NoDup (visitor_on_court st) /\
  forall p, p ∈ home_on_court st ++ visitor_on_court st ->
    p ∈ home_roster ++ visitor_roster /\ is_Some (time_on_court st !! p).
Proof.
  intros H. destruct (run_on_court_NoDup _ _ _ _ _ H) as [Hh Hv].
  split; [exact Hh|]. split; [exact Hv|]. exact (reachable_on_court_known rows st H).
Qed.

(** *** The end of a period *)

Lemma close_player_eq (t per p : Z) (bank : gmap Z PlayerTimeRecord)
    (r : PlayerTimeRecord) :
  bank !! p = Some r ->
  close_player t per p bank =
    match time_in r with
    | Some s => Ok (<[p := close_at s t per (time_in_list r) r]> bank)
    | None => Err TypeError
    end.
Proof. intros Hr. unfold close_player, lookup_record. now rewrite Hr. Qed.

Lemma close_players_run (t per : Z) (l : list Z) :
  forall bank : gmap Z PlayerTimeRecord,
  NoDup l ->
  (forall p, p ∈ l -> exists r s, bank !! p = Some r /\ time_in r = Some s) ->
  exists bank', foldM (close_player t per) l bank = Ok bank'.
Proof.
  induction l as [|p l IH]; intros bank Hnd Hall; simpl; [eauto|].
  apply NoDup_cons in Hnd as [Hp Hnd].
  destruct (Hall p) as (r & s & Hr & Hs); [left|].
  rewrite (close_player_eq t per p bank r Hr), Hs. cbn [mbind result_bind].
  apply IH; [assumption|]. intros q Hq.
  destruct (Hall q) as (rq & sq & Hrq & Hsq); [now right|].
  exists rq, sq. rewrite lookup_insert_ne by (intros ->; contradiction). auto.
Qed.

Lemma close_players_error (t per : Z) (l : list Z) :
  forall (bank : gmap Z PlayerTimeRecord) (e : error),
  (forall p, p ∈ l -> is_Some (bank !! p)) ->
  foldM (close_player t per) l bank = Err e -> e = TypeError.
Proof.
  induction l as [|p l IH]; intros bank e Hall; simpl; [discriminate|].
  destruct (Hall p) as [r Hr]; [left|].
  rewrite (close_player_eq t per p bank r Hr).
  destruct (time_in r) as [s|]; cbn [mbind result_bind]; [|congruence].
  apply IH. intros q Hq. rewrite lookup_insert.
  destruct (decide (p = q)); [eauto | apply Hall; now right].
Qed.

(** X9.  At a state reached from the initial one, a period end succeeds
    exactly when every on-court player has a stored check-in and is on
    one list only; it then empties both lists and raises the period
    counter by one.  When it fails, it fails with [TypeError], never
    with a missing key. *)
Theorem period_end_outcome (rows : list PbpRow) (st : State) (t : Z) :
  foldM (step home_roster visitor_roster home_id) rows
        (initial_state home_roster visitor_roster) = Ok st ->
  ((exists st', end_of_period t st = Ok st') <-> all_checked_in st) /\
  (forall st', end_of_period t st = Ok st' ->
     home_on_court st' = [] /\ visitor_on_court st' = [] /\
     st_period st' = st_period st + 1) /\
  (forall e, end_of_period t st = Err e -> e = TypeError).
Proof.
  intros H. pose proof (reachable_on_court_known rows st H) as Hknown.
  split; [split|split].
  - intros [st' Hend]. apply end_of_period_Ok in Hend as [Hend _].
    apply close_players_spec in Hend as (Hnd & Hin & _).
    split; [exact Hnd|]. intros p Hp.
    destruct (Hin p Hp) as (r & s & Hr & Hs & _). eauto.
  - intros [Hnd Hall].
    destruct (close_players_run t (st_period st) _ (time_on_court st) Hnd Hall)
      as [bank' Hbank].
    unfold end_of_period. rewrite Hbank. eexists. reflexivity.
  - intros st' Hend. apply end_of_period_Ok in Hend as (_ & ? & ? & ?). auto.
  - intros e. unfold end_of_period.
    destruct (foldM (close_player t (st_period st)) _ _) as [bank'|e'] eqn:Hfold;
      cbn [mbind result_bind];
      [intros Hx; discriminate Hx|].
    intros [= <-]. eapply close_players_error; [|exact Hfold].
    intros p Hp. now apply Hknown.
Qed.

End Evolution.

(** The theorems of this part after one substitution from the initial
    state (player 6 for player 1). *)
Lemma histories_are_append_only_witness :
  exists st' r',
    foldM (step sample_home_roster sample_visitor_roster 100) [sample_substitution_row]
          (initial_state sample_home_roster sample_visitor_roster) = Ok st' /\
    time_on_court st' !! 6%Z = Some r' /\
    time_in_list new_record `prefix_of` time_in_list r' /\
    time_out_list new_record `prefix_of` time_out_list r' /\
    period_list new_record `prefix_of` period_list r'.
Proof.
  assert (H : exists st',
             foldM (step sample_home_roster sample_visitor_roster 100)
                   [sample_substitution_row]
                   (initial_state sample_home_roster sample_visitor_roster) = Ok st')
    by (eexists; vm_compute; reflexivity).
  destruct H as [st' H].
  destruct (histories_are_append_only sample_home_roster sample_visitor_roster 100
              [sample_substitution_row] _ st' 6 new_record H) as (r' & Hr' & Hpre).
  - vm_compute. reflexivity.
  - exists st', r'. auto.
Defined.

Lemma record_lengths_witness :
  exists st r,
    foldM (step sample_home_roster sample_visitor_roster 100) [sample_substitution_row]
          (initial_state sample_home_roster sample_visitor_roster) = Ok st /\
    time_on_court st !! 6%Z = Some r /\
    length (period_list r) = length (time_out_list r) /\
    (length (time_out_list r) + length (open_entry r) <= length (time_in_list r))%nat.
Proof.
  assert (H : exists st r,
             foldM (step sample_home_roster sample_visitor_roster 100)
                   [sample_substitution_row]
                   (initial_state sample_home_roster sample_visitor_roster) = Ok st /\
             time_on_court st !! 6%Z = Some r)
    by (do 2 eexists; split; vm_compute; reflexivity).
  destruct H as (st & r & H & Hr). exists st, r. split; [exact H|]. split; [exact Hr|].
  exact (record_lengths sample_home_roster sample_visitor_roster 100 _ st 6 r H Hr).
Defined.

Lemma on_court_lists_are_sound_witness :
  exists st,
    foldM (step sample_home_roster sample_visitor_roster 100) [sample_substitution_row]
          (initial_state sample_home_roster sample_visitor_roster) = Ok st /\
    NoDup (home_on_court st) /\ NoDup (visitor_on_court st) /\
    forall p, p ∈ home_on_court st ++ visitor_on_court st ->
      p ∈ sample_home_roster ++ sample_visitor_roster /\ is_Some (time_on_court st !! p).
Proof.
  assert (H : exists st,
             foldM (step sample_home_roster sample_visitor_roster 100)
                   [sample_substitution_row]
                   (initial_state sample_home_roster sample_visitor_roster) = Ok st)
    by (eexists; vm_compute; reflexivity).
  destruct H as [st H]. exists st. split; [exact H|].
  exact (on_court_lists_are_sound sample_home_roster sample_visitor_roster 100 _ st H).
Defined.

Lemma period_end_outcome_witness :
  exists st st',
    foldM (step sample_home_roster sample_visitor_roster 100) [sample_substitution_row]
          (initial_state sample_home_roster sample_visitor_roster) = Ok st /\
    end_of_period 1200 st = Ok st' /\
    home_on_court st' = [] /\ visitor_on_court st' = [] /\
    st_period st' = (st_period st + 1)%Z.
Proof.
  assert (H : exists st st',
             foldM (step sample_home_roster sample_visitor_roster 100)
                   [sample_substitution_row]
                   (initial_state sample_home_roster sample_visitor_roster) = Ok st /\
             end_of_period 1200 st = Ok st')
    by (do 2 eexists; split; vm_compute; reflexivity).
  destruct H as (st & st' & H & Hend). exists st, st'.
  split; [exact H|]. split; [exact Hend|].
  destruct (period_end_outcome sample_home_roster sample_visitor_roster 100 _ st 1200 H)
    as (_ & Hok & _).
  exact (Hok st' Hend).
Defined.

(** ** What the frame construction can do after the loop *)

Section Outcome.

Local Open Scope Z_scope.

Variables (home_roster visitor_roster : list Z) (home_id visitor_id : Z).

Lemma player_frame_balanced (p : Z) (r : PlayerTimeRecord) :
  balanced r ->
  exists ivs, player_frame home_roster home_id visitor_id p r = Ok ivs.
Proof.
  intros H. unfold player_frame. rewrite decide_True by exact H. eauto.
Qed.

Lemma player_frame_unbalanced (p : Z) (r : PlayerTimeRecord) :
  ~ balanced r -> player_frame home_roster home_id visitor_id p r = Err ValueError.
Proof.
  intros H. unfold player_frame. now rewrite decide_False by exact H.
Qed.

(** With every key in the bank, the construction succeeds when all
    records are balanced and otherwise stops with [ValueError]. *)
Lemma build_sub_df_outcome (keys : list Z) (bank : gmap Z PlayerTimeRecord) :
  (forall p, p ∈ keys -> is_Some (bank !! p)) ->
  ((forall p r, p ∈ keys -> bank !! p = Some r -> balanced r) ->
   exists sub_df, build_sub_df home_roster home_id visitor_id keys bank = Ok sub_df) /\
  (forall e, build_sub_df home_roster home_id visitor_id keys bank = Err e ->
             e = ValueError).
Proof.
  unfold build_sub_df. generalize NoColumns.
  induction keys as [|p keys IH]; intros acc Hkeys; simpl.
  - split; [eauto | discriminate].
  - destruct (Hkeys p) as [r Hr]; [left|].
    unfold lookup_record. rewrite Hr. cbn [mbind result_bind].
    fold (lookup_record bank).
    destruct (decide (balanced r)) as [Hb|Hb].
    + destruct (player_frame_balanced p r Hb) as [ivs ->]. cbn [mbind result_bind].
      destruct (IH (concat_frame acc ivs)) as [IH1 IH2]; [intros q Hq; apply Hkeys; now right|].
      split; [|exact IH2]. intros Hall. apply IH1. intros q rq Hq. apply Hall. now right.
    + rewrite (player_frame_unbalanced p r Hb). cbn [mbind result_bind].
      split; [|congruence]. intros Hall. exfalso. apply Hb. eapply Hall; [left | exact Hr].
Qed.

Lemma final_keys_known (pbp_df : list Event) (rows : list PbpRow) (st : State) (p : Z) :
  run_state_machine pbp_df home_roster visitor_roster home_id = Ok (rows, st) ->
  p ∈ dict_keys (home_roster ++ visitor_roster) <-> is_Some (time_on_court st !! p).
Proof.
  intros H. rewrite dict_keys_elem, <- elem_of_dom, (final_bank_dom _ _ _ _ _ _ H).
  now rewrite elem_of_list_to_set.
Qed.

Lemma process_after_run (pbp_df : list Event) (rows : list PbpRow) (st : State) :
  run_state_machine pbp_df home_roster visitor_roster home_id = Ok (rows, st) ->
  process_pbp_data pbp_df home_roster visitor_roster home_id visitor_id =
    (sub_df ← build_sub_df home_roster home_id visitor_id
                (dict_keys (home_roster ++ visitor_roster)) (time_on_court st);
     Ok (sub_df, rows)).
Proof. intros H. unfold process_pbp_data. now rewrite H. Qed.

(** A record with lists of different lengths stops both passes. *)
Lemma unbalanced_record_is_fatal (pbp_df : list Event) (rows : list PbpRow) (st : State)
    (p : Z) (r : PlayerTimeRecord) :
  run_state_machine pbp_df home_roster visitor_roster home_id = Ok (rows, st) ->
  time_on_court st !! p = Some r -> ~ balanced r ->
  process_pbp_data pbp_df home_roster visitor_roster home_id visitor_id = Err ValueError /\
  pipeline pbp_df home_roster visitor_roster home_id visitor_id = Err ValueError.
Proof.
  intros Hrun Hr Hb.
  assert (Hproc : process_pbp_data pbp_df home_roster visitor_roster home_id visitor_id =
                  Err ValueError).
  { rewrite (process_after_run _ _ _ Hrun).
    destruct (build_sub_df_outcome (dict_keys (home_roster ++ visitor_roster))
                (time_on_court st)) as [_ Herr].
    { intros q Hq. now apply (final_keys_known _ _ _ _ Hrun). }
    destruct (build_sub_df _ _ _ _ _) as [sub_df|e] eqn:Hbuild.
    - exfalso. apply Hb.
      destruct (sub_df_player_rows home_roster visitor_roster home_id visitor_id
                  (time_on_court st) sub_df p) as [Hin _];
        [eapply final_bank_dom; eassumption | exact Hbuild |].
      apply Hin in Hr. now apply player_frame_Ok in Hr as [Hlen _].
    - cbn [mbind result_bind]. now rewrite (Herr e eq_refl). }
  split; [exact Hproc|]. unfold pipeline. now rewrite Hproc.
Qed.

(** X10.  Once the loop has consumed every event, the frame construction
    succeeds exactly when every record has as many check-ins as
    check-outs; the only error it can raise is [ValueError]. *)
Theorem frame_construction_outcome (pbp_df : list Event) (rows : list PbpRow)
    (st : State) :
  run_state_machine pbp_df home_roster visitor_roster home_id = Ok (rows, st) ->
  ((forall p r, time_on_court st !! p = Some r -> balanced r) <->
   exists sub_df,
     process_pbp_data pbp_df home_roster visitor_roster home_id visitor_id =
       Ok (sub_df, rows)) /\
  (forall e,
     process_pbp_data pbp_df home_roster visitor_roster home_id visitor_id = Err e ->
     e = ValueError).
Proof.
  intros Hrun. rewrite (process_after_run _ _ _ Hrun).
  destruct (build_sub_df_outcome (dict_keys (home_roster ++ visitor_roster))
              (time_on_court st)) as [Hok Herr].
  { intros q Hq. now apply (final_keys_known _ _ _ _ Hrun). }
  split; [split|].
  - intros Hall. destruct Hok as [sub_df ->]; [eauto|]. eexists. reflexivity.
  - intros [sub_df H] p r Hr. inv_bind H.
    destruct (sub_df_player_rows home_roster visitor_roster home_id visitor_id
                (time_on_court st) a p) as [Hin _];
      [eapply final_bank_dom; eassumption | exact Ha |].
    apply Hin in Hr. now apply player_frame_Ok in Hr as [Hlen _].
  - intros e H.
    destruct (build_sub_df _ _ _ _ _) as [sub_df|e'] eqn:Hbuild; [discriminate H|].
    cbn [mbind result_bind] in H. injection H as <-. now apply Herr.
Qed.

(** X11.  When the last event has been consumed and some player still
    has a stored check-in, both passes fail with [ValueError]: an
    interval left open is never written out. *)
Theorem open_interval_at_the_end_is_fatal (pbp_df : list Event) (rows : list PbpRow)
    (st : State) (p : Z) (r : PlayerTimeRecord) (s : Z) :
  run_state_machine pbp_df home_roster visitor_roster home_id = Ok (rows, st) ->
  time_on_court st !! p = Some r -> time_in r = Some s ->
  process_pbp_data pbp_df home_roster visitor_roster home_id visitor_id = Err ValueError /\
  pipeline pbp_df home_roster visitor_roster home_id visitor_id = Err ValueError.
Proof.
  intros Hrun Hr Hs. eapply unbalanced_record_is_fatal; [exact Hrun | exact Hr |].
  apply run_state_machine_Ok in Hrun as (rs & _ & _ & Hfold).
  pose proof (reachable_record _ _ _ _ _ _ _ Hfold Hr) as Hev.
  destruct (evolves_lengths _ _ Hev eq_refl) as [_ Hlen]; [simpl; lia|].
  unfold balanced, open_entry in *. rewrite Hs in Hlen. simpl in Hlen. lia.
Qed.

(** X12.  A substitution that brings in a player who already has a
    stored check-in (and is not the outgoing player) makes the run
    unable to produce the frame: whatever events follow, both passes end
    in [ValueError] if the loop completes. *)
Theorem second_entry_without_exit_is_fatal (pbp_df : list Event)
    (pre post : list PbpRow) (row : PbpRow) (mid st : State)
    (p : Z) (r : PlayerTimeRecord) (s : Z) :
  run_state_machine pbp_df home_roster visitor_roster home_id =
    Ok (pre ++ row :: post, st) ->
  foldM (step home_roster visitor_roster home_id) pre
        (initial_state home_roster visitor_roster) = Ok mid ->
  time_on_court mid !! p = Some r -> time_in r = Some s ->
  eventmsgtype row = 8 -> player2_id row = Some p -> player1_id row <> Some p ->
  process_pbp_data pbp_df home_roster visitor_roster home_id visitor_id = Err ValueError /\
  pipeline pbp_df home_roster visitor_roster home_id visitor_id = Err ValueError.
Proof.
  intros Hrun Hpre Hr Hs E8 E2 E1.
  pose proof Hrun as Hrun'.
  apply run_state_machine_Ok in Hrun' as (rs & _ & Hrows & Hfold).
  rewrite <- Hrows in Hfold.
  apply foldM_split in Hfold as (mid' & st2 & Hpre' & Hstep & Hpost).
  assert (mid' = mid) as -> by congruence.
  apply step_Ok in Hstep as (t & mpt & _ & Hstep).
  unfold step_at in Hstep. rewrite E8 in Hstep. simpl in Hstep.
  apply substitution_Ok in Hstep
    as (p1 & p2 & r1 & r2 & E1' & E2' & Hr1 & Hr2 & Hbank & _).
  assert (p2 = p) as -> by congruence.
  assert (Hne : p1 <> p) by congruence.
  rewrite lookup_insert_ne in Hr2 by assumption.
  assert (r2 = r) as -> by congruence.
  assert (Hst2 : time_on_court st2 !! p = Some (check_in t r))
    by (rewrite Hbank; apply lookup_insert_eq).
  assert (Hbroken : broken (check_in t r)).
  { pose proof (reachable_record _ _ _ _ _ _ _ Hpre Hr) as Hev.
    destruct (evolves_lengths _ _ Hev eq_refl) as [_ Hlen]; [simpl; lia|].
    unfold broken, open_entry in *. rewrite Hs in Hlen. simpl in *.
    rewrite length_app. simpl. lia. }
  destruct (run_evolves _ _ _ _ _ _ _ _ Hpost Hst2) as (r' & Hr' & Hev').
  eapply unbalanced_record_is_fatal; [exact Hrun | exact Hr' |].
  apply (evolves_broken _ _ Hev') in Hbroken. unfold broken, balanced in *. lia.
Qed.

Lemma rows_stay_rows (bank : gmap Z PlayerTimeRecord) (keys : list Z)
    (acc : list SubstitutionInterval) (f : Frame) :
  foldM (fun p sub_df =>
           r ← lookup_record bank p;
           temp_df ← player_frame home_roster home_id visitor_id p r;
           Ok (concat_frame sub_df temp_df)) keys (Rows acc) = Ok f ->
  f <> NoColumns.
Proof.
  revert acc. induction keys as [|q keys IH]; simpl; intros acc Hf.
  - injection Hf as <-. discriminate.
  - inv_bind Hf. inv_bind Ha. inv_bind Ha. injection Ha as <-. simpl in Hf.
    eapply IH. exact Hf.
Qed.

(** X13.  The interval frame has no columns exactly when both rosters are
    empty; the assignment pass then accepts only the empty event
    frame. *)
Theorem frame_without_columns (pbp_df : list Event) (sub_df : Frame)
    (rows : list PbpRow) :
  process_pbp_data pbp_df home_roster visitor_roster home_id visitor_id =
    Ok (sub_df, rows) ->
  (sub_df = NoColumns <-> home_roster ++ visitor_roster = []) /\
  (sub_df = NoColumns ->
   forall player_df,
     assign_players_on_court sub_df rows home_id visitor_id = Ok player_df ->
     pbp_df = [] /\ player_df = []).
Proof.
  intros H. apply process_pbp_data_Ok in H as (st & Hrun & Hbuild).
  split.
  - destruct (home_roster ++ visitor_roster) as [|p l] eqn:El.
    + injection Hbuild as <-. tauto.
    + split; [|discriminate]. intros ->.
      unfold build_sub_df in Hbuild. cbn [dict_keys foldM] in Hbuild.
      inv_bind Hbuild. inv_bind Ha. inv_bind Ha. injection Ha as <-.
      exfalso. eapply rows_stay_rows; [exact Hbuild | reflexivity].
  - intros -> player_df Hassign.
    apply run_state_machine_Ok in Hrun as (rs & Hmap & -> & _).
    apply mapM_attach in Hmap as [Hmap _].
    unfold assign_players_on_court in Hassign.
    destruct (sort_values rs) as [|row rest] eqn:Hs; [|discriminate].
    injection Hassign as <-. split; [|reflexivity].
    assert (Hperm := sort_values_perm rs). rewrite Hs in Hperm.
    apply Permutation_nil in Hperm. now subst.
Qed.

End Outcome.

(** [return_game] runs to the end with every record balanced. *)
Lemma frame_construction_outcome_witness :
  exists rows st,
    run_state_machine return_game sample_home_roster sample_visitor_roster 100 =
      Ok (rows, st) /\
    ((forall p r, time_on_court st !! p = Some r -> balanced r) <->
     exists sub_df,
       process_pbp_data return_game sample_home_roster sample_visitor_roster 100 200 =
         Ok (sub_df, rows)) /\
    (forall e,
       process_pbp_data return_game sample_home_roster sample_visitor_roster 100 200 =
         Err e -> e = ValueError).
Proof.
  assert (H : exists rows st,
             run_state_machine return_game sample_home_roster sample_visitor_roster 100 =
               Ok (rows, st))
    by (do 2 eexists; vm_compute; reflexivity).
  destruct H as (rows & st & H). exists rows, st. split; [exact H|].
  exact (frame_construction_outcome sample_home_roster sample_visitor_roster 100 200
           return_game rows st H).
Defined.

(** In [unfinished_game] player 6 is still checked in when the log
    stops. *)
Lemma open_interval_at_the_end_is_fatal_witness :
  exists rows st r,
    run_state_machine unfinished_game sample_home_roster sample_visitor_roster 100 =
      Ok (rows, st) /\
    time_on_court st !! 6%Z = Some r /\ time_in r = Some 2340%Z /\
    process_pbp_data unfinished_game sample_home_roster sample_visitor_roster 100 200 =
      Err ValueError /\
    pipeline unfinished_game sample_home_roster sample_visitor_roster 100 200 =
      Err ValueError.
Proof.
  assert (H : exists rows st r,
             run_state_machine unfinished_game sample_home_roster sample_visitor_roster
               100 = Ok (rows, st) /\
             time_on_court st !! 6%Z = Some r /\ time_in r = Some 2340%Z)
    by (do 3 eexists; split; [|split]; vm_compute; reflexivity).
  destruct H as (rows & st & r & H & Hr & Hs). exists rows, st, r.
  split; [exact H|]. split; [exact Hr|]. split; [exact Hs|].
  exact (open_interval_at_the_end_is_fatal sample_home_roster sample_visitor_roster
           100 200 unfinished_game rows st 6 r 2340 H Hr Hs).
Defined.

(** In [double_entry_game] the second substitution brings player 6 in
    again; the period end that follows does not repair the record. *)
Lemma second_entry_without_exit_is_fatal_witness :
  process_pbp_data double_entry_game sample_home_roster sample_visitor_roster 100 200 =
    Err ValueError /\
  pipeline double_entry_game sample_home_roster sample_visitor_roster 100 200 =
    Err ValueError.
Proof.
  set (r1 := {| row_event := mk_event 1 1 "9:00" 8 (Some 1) (Some 100) (Some 6) None;
                game_time_remaining := 2340 |}).
  set (r2 := {| row_event := mk_event 2 1 "8:00" 8 (Some 2) (Some 100) (Some 6) None;
                game_time_remaining := 2280 |}).
  set (r3 := {| row_event := mk_event 3 1 "0:00" 13 None None None None;
                game_time_remaining := 1800 |}).
  assert (H : exists st mid r,
             run_state_machine double_entry_game sample_home_roster sample_visitor_roster
               100 = Ok ([r1] ++ r2 :: [r3], st) /\
             foldM (step sample_home_roster sample_visitor_roster 100) [r1]
                   (initial_state sample_home_roster sample_visitor_roster) = Ok mid /\
             time_on_court mid !! 6%Z = Some r /\ time_in r = Some 2340%Z)
    by (do 3 eexists; split; [|split; [|split]]; vm_compute; reflexivity).
  destruct H as (st & mid & r & Hrun & Hpre & Hr & Hs).
  apply (second_entry_without_exit_is_fatal sample_home_roster sample_visitor_roster
           100 200 double_entry_game [r1] [r3] r2 mid st 6 r 2340 Hrun Hpre Hr Hs);
    [reflexivity | reflexivity | discriminate].
Defined.

(** Without rosters a lone play is consumed and leaves a frame without
    columns. *)
Lemma frame_without_columns_witness :
  exists sub_df rows,
    process_pbp_data [mk_event 1 1 "9:00" 1 (Some 1) (Some 100) None None] [] [] 100 200 =
      Ok (sub_df, rows) /\
    (sub_df = NoColumns <-> [] ++ [] = ([] : list Z)) /\
    assign_players_on_court sub_df rows 100 200 = Err KeyErrorColumn.
Proof.
  assert (H : exists sub_df rows,
             process_pbp_data [mk_event 1 1 "9:00" 1 (Some 1) (Some 100) None None]
               [] [] 100 200 = Ok (sub_df, rows) /\
             assign_players_on_court sub_df rows 100 200 = Err KeyErrorColumn)
    by (do 2 eexists; split; vm_compute; reflexivity).
  destruct H as (sub_df & rows & H & Hassign). exists sub_df, rows.
  split; [exact H|]. split; [|exact Hassign].
  exact (proj1 (frame_without_columns [] [] 100 200 _ sub_df rows H)).
Defined.

(** ** The lineup table, row by row *)

Lemma team_lineup_Ok_eq (ivs : list SubstitutionInterval) (index : nat) (row : PbpRow)
    (team_id : Z) (l : list Z) :
  team_lineup (Rows ivs) index row team_id = Ok l ->
  l = on_court_players ivs row team_id /\ length l = 5%nat.
Proof.
  unfold team_lineup.
  destruct (on_court_players ivs row team_id) as [|a [|b [|c [|d [|e [|f l']]]]]];
    intros [= <-]; auto.
Qed.

Lemma assign_rows_iff (ivs : list SubstitutionInterval) (home_id visitor_id : Z)
    (pbp_df : list PbpRow) (k : nat) (player_df : list LineupRow) :
  assign_rows (Rows ivs) home_id visitor_id k pbp_df = Ok player_df <->
  Forall (fun row => length (on_court_players ivs row home_id) = 5%nat /\
                     length (on_court_players ivs row visitor_id) = 5%nat) pbp_df /\
  player_df = lineup_row ivs home_id visitor_id <$> pbp_df.
Proof.
  revert k player_df. induction pbp_df as [|row rest IH]; intros k player_df.
  - simpl. split; [intros [= <-]; split; constructor | intros [_ ->]; reflexivity].
  - cbn [assign_rows]. split.
    + intros H. inv_bind H. inv_bind H. inv_bind H. injection H as <-.
      apply team_lineup_Ok_eq in Ha as [-> Hh]. apply team_lineup_Ok_eq in Ha0 as [-> Hv].
      apply IH in Ha1 as [Hall ->]. split; [constructor; auto | reflexivity].
    + intros [Hall ->]. apply Forall_cons in Hall as [[Hh Hv] Hall].
      rewrite (team_lineup_five ivs k row home_id Hh). cbn [mbind result_bind].
      rewrite (team_lineup_five ivs k row visitor_id Hv). cbn [mbind result_bind].
      rewrite (proj2 (IH (S k) _) (conj Hall eq_refl)). reflexivity.
Qed.

(** X14.  On a frame with columns the assignment pass succeeds exactly
    when, at every event, the selections for the home and for the
    visiting team both have five ids; the table then holds, event by
    event and in the same order, the game id, the event number and the
    two selections. *)
Theorem assignment_succeeds_iff (ivs : list SubstitutionInterval)
    (pbp_df : list PbpRow) (home_id visitor_id : Z) (player_df : list LineupRow) :
  assign_players_on_court (Rows ivs) pbp_df home_id visitor_id = Ok player_df <->
  Forall (fun row => length (on_court_players ivs row home_id) = 5%nat /\
                     length (on_court_players ivs row visitor_id) = 5%nat) pbp_df /\
  player_df = lineup_row ivs home_id visitor_id <$> pbp_df.
Proof. apply assign_rows_iff. Qed.

(** ** The counter is never negative on well-timed logs *)

Lemma interval_total_nonneg (ins outs : list Z) :
  Forall2 (fun i o => (o <= i)%Z) ins outs -> (0 <= interval_total ins outs)%Z.
Proof.
  unfold interval_total. induction 1; simpl; lia.
Qed.

(** X15.  When no event's clock exceeds the length of its period and the
    frame is produced, no player's [playing_time] counter is
    negative. *)
Theorem playing_time_is_not_negative
    (home_roster visitor_roster : list Z) (home_id visitor_id : Z)
    (pbp_df : list Event) (sub_df : Frame) (rows : list PbpRow) (st : State) :
  Forall (clock_within_period Z.le) pbp_df ->
  process_pbp_data pbp_df home_roster visitor_roster home_id visitor_id =
    Ok (sub_df, rows) ->
  run_state_machine pbp_df home_roster visitor_roster home_id = Ok (rows, st) ->
  forall p r, time_on_court st !! p = Some r -> (0 <= playing_time r)%Z.
Proof.
  intros Hwithin H Hrun p r Hr.
  apply process_pbp_data_Ok in H as (st' & Hrun' & Hbuild).
  assert (st' = st) as -> by congruence.
  destruct (run_state_machine_bank_ok Z.le Z.le_refl Z.le_trans (fun a b H => H)
              home_roster visitor_roster home_id pbp_df rows st Hwithin Hrun)
    as [lo Hok].
  destruct (sub_df_player_rows home_roster visitor_roster home_id visitor_id
              (time_on_court st) sub_df p) as [Hin _];
    [eapply final_bank_dom; eassumption | exact Hbuild |].
  apply Hin in Hr as Hframe. apply player_frame_Ok in Hframe as (Hlen & _).
  destruct (rec_ok_closed Z.le lo r (Hok p r Hr) Hlen) as (-> & Hle & _).
  now apply interval_total_nonneg.
Qed.

Lemma playing_time_is_not_negative_witness :
  exists sub_df rows st,
    Forall (clock_within_period Z.le) return_game /\
    process_pbp_data return_game sample_home_roster sample_visitor_roster 100 200 =
      Ok (sub_df, rows) /\
    run_state_machine return_game sample_home_roster sample_visitor_roster 100 =
      Ok (rows, st) /\
    forall p r, time_on_court st !! p = Some r -> (0 <= playing_time r)%Z.
Proof.
  assert (H : exists sub_df rows st,
             process_pbp_data return_game sample_home_roster sample_visitor_roster 100 200 =
               Ok (sub_df, rows) /\
             run_state_machine return_game sample_home_roster sample_visitor_roster 100 =
               Ok (rows, st))
    by (do 3 eexists; split; vm_compute; reflexivity).
  destruct H as (sub_df & rows & st & H & Hrun). exists sub_df, rows, st.
  split; [exact sample_clocks_within_period|]. split; [exact H|]. split; [exact Hrun|].
  exact (playing_time_is_not_negative _ _ _ _ _ _ _ _
           sample_clocks_within_period H Hrun).
Defined.

(** ** How a substitution changes the size of a list *)

Lemma py_remove_length (x : Z) (l : list Z) :
  x ∈ l -> S (length (py_remove x l)) = length l.
Proof.
  induction l as [|a l IH]; simpl; [inversion 1|].
  destruct (decide (x = a)); [reflexivity|].
  rewrite elem_of_cons. intros [?|Hx]; [contradiction|]. simpl. now rewrite IH.
Qed.

(** X16.  On a duplicate-free on-court list a substitution of [p2] for
    [p1] keeps the size when [p1] is on the list and [p2] is not (or is
    [p1] itself), adds one when neither is on it, removes one when both
    are, and changes nothing when only [p2] is. *)
Theorem substitution_list_size (p1 p2 : Z) (l : list Z) :
  NoDup l ->
  (p1 ∈ l -> (p2 ∉ l) \/ p2 = p1 -> length (sub_on_court p1 p2 l) = length l) /\
  (p1 ∉ l -> p2 ∉ l -> length (sub_on_court p1 p2 l) = S (length l)) /\
  (p1 ∈ l -> p2 ∈ l -> p1 <> p2 -> S (length (sub_on_court p1 p2 l)) = length l) /\
  (p1 ∉ l -> p2 ∈ l -> sub_on_court p1 p2 l = l).
Proof.
  intros Hnd. unfold sub_on_court.
  split; [|split; [|split]].
  - intros H1 H2. destruct (decide (p1 ∈ l)); [|contradiction].
    destruct (decide (p2 ∈ py_remove p1 l)) as [Hin|_].
    + apply py_remove_elem in Hin as [Hin Hne]; [|assumption].
      destruct H2 as [H2| ->]; contradiction.
    + rewrite length_app. simpl. pose proof (py_remove_length p1 l H1). lia.
  - intros H1 H2. destruct (decide (p1 ∈ l)); [contradiction|].
    destruct (decide (p2 ∈ l)); [contradiction|]. rewrite length_app. simpl. lia.
  - intros H1 H2 Hne. destruct (decide (p1 ∈ l)); [|contradiction].
    destruct (decide (p2 ∈ py_remove p1 l)) as [_|Hout].
    + now apply py_remove_length.
    + exfalso. apply Hout. apply py_remove_elem; auto.
  - intros H1 H2. destruct (decide (p1 ∈ l)); [contradiction|].
    destruct (decide (p2 ∈ l)); [reflexivity | contradiction].
Qed.

Lemma substitution_list_size_witness :
  NoDup [1; 2; 3; 4; 5]%Z /\
  length (sub_on_court 1 6 [1; 2; 3; 4; 5]) = 5%nat /\
  length (sub_on_court 7 6 [1; 2; 3; 4; 5]) = 6%nat /\
  S (length (sub_on_court 1 2 [1; 2; 3; 4; 5])) = 5%nat /\
  sub_on_court 7 2 [1; 2; 3; 4; 5] = [1; 2; 3; 4; 5]%Z.
Proof.
  assert (Hnd : NoDup [1; 2; 3; 4; 5]%Z) by (apply (bool_decide_unpack _); reflexivity).
  split; [exact Hnd|].
  split; [|split; [|split]].
  - apply (proj1 (substitution_list_size 1 6 _ Hnd)); [|left];
      apply (bool_decide_unpack _); reflexivity.
  - apply (proj1 (proj2 (substitution_list_size 7 6 _ Hnd)));
      apply (bool_decide_unpack _); reflexivity.
  - apply (proj1 (proj2 (proj2 (substitution_list_size 1 2 _ Hnd))));
      [apply (bool_decide_unpack _); reflexivity ..| discriminate].
  - apply (proj2 (proj2 (proj2 (substitution_list_size 7 2 _ Hnd))));
      apply (bool_decide_unpack _); reflexivity.
Defined.

(** ** Generic plays *)

Section GenericPlay.

Variables (home_roster visitor_roster : list Z) (home_id : Z).

Lemma discover_post (mpt : Z) (o : option Z) (st st' : State) :
  discover home_roster visitor_roster mpt o st = Ok st' ->
  (forall x, x ∈ home_on_court st -> x ∈ home_on_court st') /\
  (forall x, x ∈ visitor_on_court st -> x ∈ visitor_on_court st') /\
  forall p, o = Some p ->
    (p ∈ home_roster -> p ∈ home_on_court st') /\
    (p ∉ home_roster -> p ∈ visitor_roster -> p ∈ visitor_on_court st').
Proof.
  unfold discover. destruct o as [p|]; [|intros [= <-]; repeat split; auto; discriminate].
  destruct (decide ((p ∈ home_roster) ∧ (p ∉ home_on_court st))) as [[H1 H2]|Hn1].
  - intros H. inv_bind H. injection H as <-. simpl.
    split; [intros x Hx; apply elem_of_app; auto|]. split; [auto|].
    intros q [= <-]. split; [|contradiction].
    intros _. apply elem_of_app. right. now left.
  - destruct (decide ((p ∈ visitor_roster) ∧ (p ∉ visitor_on_court st))) as [[H1 H2]|Hn2].
    + intros H. inv_bind H. injection H as <-. simpl.
      split; [auto|]. split; [intros x Hx; apply elem_of_app; auto|].
      intros q [= <-]. split.
      * intros Hh. destruct (decide (p ∈ home_on_court st)); tauto.
      * intros _ _. apply elem_of_app. right. now left.
    + intros [= <-]. split; [auto|]. split; [auto|].
      intros q [= <-]. split.
      * intros Hh. destruct (decide (p ∈ home_on_court st)); tauto.
      * intros _ Hv. destruct (decide (p ∈ visitor_on_court st)); tauto.
Qed.

Lemma discover_runs (mpt : Z) (o : option Z) (st : State) :
  (forall p, p ∈ home_roster ++ visitor_roster -> is_Some (time_on_court st !! p)) ->
  exists st', discover home_roster visitor_roster mpt o st = Ok st'.
Proof.
  intros Hbank. unfold discover. destruct o as [p|]; [|eauto].
  destruct (decide ((p ∈ home_roster) ∧ (p ∉ home_on_court st))) as [[H1 H2]|Hn1].
  - destruct (Hbank p) as [r Hr]; [apply elem_of_app; auto|].
    unfold lookup_record. rewrite Hr. eexists. reflexivity.
  - destruct (decide ((p ∈ visitor_roster) ∧ (p ∉ visitor_on_court st))) as [[H1 H2]|Hn2].
    + destruct (Hbank p) as [r Hr]; [apply elem_of_app; auto|].
      unfold lookup_record. rewrite Hr. eexists. reflexivity.
    + eauto.
Qed.

(** X17.  At a state reached from the initial one a generic play never
    fails, and afterwards every named participant on the home roster is
    on the home list and every named participant on the visitors' roster
    only is on the visitors' list; nobody leaves a list. *)
Theorem generic_play_puts_participants_on_court (rows : list PbpRow) (st : State)
    (mpt : Z) (row : Event) :
  foldM (step home_roster visitor_roster home_id) rows
        (initial_state home_roster visitor_roster) = Ok st ->
  exists st',
    generic_play home_roster visitor_roster mpt row st = Ok st' /\
    (forall x, x ∈ home_on_court st -> x ∈ home_on_court st') /\
    (forall x, x ∈ visitor_on_court st -> x ∈ visitor_on_court st') /\
    forall p,
      player1_id row = Some p \/ player2_id row = Some p \/ player3_id row = Some p ->
      (p ∈ home_roster -> p ∈ home_on_court st') /\
      (p ∉ home_roster -> p ∈ visitor_roster -> p ∈ visitor_on_court st').
Proof.
  intros H.
  assert (Hbank : forall s, dom (time_on_court s) = dom (time_on_court st) ->
            forall p, p ∈ home_roster ++ visitor_roster -> is_Some (time_on_court s !! p)).
  { intros s Hs p Hp. apply elem_of_dom.
    rewrite Hs, (run_dom _ _ _ _ _ _ H), initial_state_dom.
    now apply elem_of_list_to_set. }
  unfold generic_play. cbn [foldM].
  destruct (discover_runs mpt (player1_id row) st (Hbank st eq_refl)) as [s1 H1].
  rewrite H1. cbn [mbind result_bind].
  pose proof (discover_dom _ _ _ _ _ _ H1) as D1.
  destruct (discover_runs mpt (player2_id row) s1 (Hbank s1 D1)) as [s2 H2].
  rewrite H2. cbn [mbind result_bind].
  pose proof (discover_dom _ _ _ _ _ _ H2) as D2. rewrite D1 in D2.
  destruct (discover_runs mpt (player3_id row) s2 (Hbank s2 D2)) as [s3 H3].
  rewrite H3. cbn [mbind result_bind].
  exists s3. split; [reflexivity|].
  apply discover_post in H1 as (Hh1 & Hv1 & Hp1).
  apply discover_post in H2 as (Hh2 & Hv2 & Hp2).
  apply discover_post in H3 as (Hh3 & Hv3 & Hp3).
  split; [auto|]. split; [auto|].
  intros p [E|[E|E]].
  - destruct (Hp1 p E). split; auto.
  - destruct (Hp2 p E). split; auto.
  - destruct (Hp3 p E). split; auto.
Qed.

End GenericPlay.

Lemma generic_play_puts_participants_on_court_witness :
  exists st st',
    foldM (step sample_home_roster sample_visitor_roster 100) [sample_substitution_row]
          (initial_state sample_home_roster sample_visitor_roster) = Ok st /\
    generic_play sample_home_roster sample_visitor_roster 1800
      (mk_event 21 2 "6:00" 1 (Some 2) (Some 100) (Some 11) None) st = Ok st' /\
    (2 ∈ home_on_court st')%Z /\ (11 ∈ visitor_on_court st')%Z.
Proof.
  assert (H : exists st,
             foldM (step sample_home_roster sample_visitor_roster 100)
                   [sample_substitution_row]
                   (initial_state sample_home_roster sample_visitor_roster) = Ok st)
    by (eexists; vm_compute; reflexivity).
  destruct H as [st H].
  destruct (generic_play_puts_participants_on_court
              sample_home_roster sample_visitor_roster 100 _ st 1800
              (mk_event 21 2 "6:00" 1 (Some 2) (Some 100) (Some 11) None) H)
    as (st' & Hplay & _ & _ & Hp).
  exists st, st'. split; [exact H|]. split; [exact Hplay|]. split.
  - apply (Hp 2); [left; reflexivity|]. apply (bool_decide_unpack _). reflexivity.
  - apply (Hp 11); [right; left; reflexivity| |];
      apply (bool_decide_unpack _); reflexivity.
Defined.
